(** * scripts/generate-logos.py: the logo generator, embedded and verified

    The script reads one source image, writes six resized PNG copies into
    the [public] directory, removes a legacy [favicon.ico] and returns a
    boolean.  Everything it does is a sequence of calls into [pathlib],
    [PIL.Image] and [print]; the embedding below models those calls over an
    explicit file system, with Python exceptions as a second outcome next
    to normal return, and records every effect in an event log.

    The file system is a finite map from paths to nodes.  The calls are
    modelled as they behave on a tree (every node has a directory for
    parent), one process at a time; permissions, symbolic links and disk
    space are left out, so the one way a write or an unlink can fail here
    is a directory in the way.  The [ImportError] fallback at the top of
    the script, which installs Pillow, is modelled apart from
    [generate_logos], in [script], over what the install command leaves. *)

From stdpp Require Import gmap strings list fin_maps pretty.

Open Scope Z_scope.

(** ** Paths (pathlib.PurePosixPath)

    A path is absolute and is stored as its components, innermost first:
    [/repo/scripts/generate-logos.py] is
    [["generate-logos.py"; "scripts"; "repo"]] and the root [/] is [[]].
    With this order [Path.parent] is the tail of the list.  ([__file__] of
    a script run as [__main__] is an absolute path.) *)

Abbreviation Path := (list string).

(** [Path(s)] for the components of [s], outermost first. *)
Definition of_parts (parts : list string) : Path := rev parts.

(** [p.parent]; the parent of the root is the root itself. *)
Definition parent (p : Path) : Path := tail p.

(** [p / name], for a [name] that is one relative component. *)
Definition joinpath (p : Path) (name : string) : Path := name :: p.

Declare Scope path_scope.
Delimit Scope path_scope with path.
Infix "/" := joinpath : path_scope.

(** [str(p)] *)
Fixpoint str_parts (outermost_first : list string) : string :=
  match outermost_first with
  | [] => ""
  | part :: rest => "/" +:+ part +:+ str_parts rest
  end.

Definition str (p : Path) : string :=
  match p with
  | [] => "/"
  | _ => str_parts (rev p)
  end.

(** ** Images (PIL.Image)

    Pixel values are never inspected by the script, so an image is the
    decoded bitmap together with the operations applied to it since.
    [convert] and [resize] return a new image and leave their argument
    as it was. *)

Inductive Resampling := NEAREST | BOX | BILINEAR | HAMMING | BICUBIC | LANCZOS.

Inductive Image :=
| Bitmap (mode : string) (width height : Z) (raster : list Z)
| Convert (mode : string) (im : Image)
| Resize (size : Z * Z) (resample : Resampling) (im : Image).

Fixpoint mode (im : Image) : string :=
  match im with
  | Bitmap m _ _ _ => m
  | Convert m _ => m
  | Resize _ _ im => mode im
  end.

Fixpoint size (im : Image) : Z * Z :=
  match im with
  | Bitmap _ w h _ => (w, h)
  | Convert _ im => size im
  | Resize sz _ _ => sz
  end.

Definition convert (m : string) (im : Image) : Image := Convert m im.
Definition resize (sz : Z * Z) (resample : Resampling) (im : Image) : Image :=
  Resize sz resample im.

(** [Image.getbands]: the channel names of the standard modes. *)
Definition getbands (im : Image) : list string :=
  let m := mode im in
  if String.eqb m "1" then ["1"]
  else if String.eqb m "L" then ["L"]
  else if String.eqb m "P" then ["P"]
  else if String.eqb m "I" then ["I"]
  else if String.eqb m "F" then ["F"]
  else if String.eqb m "LA" then ["L"; "A"]
  else if String.eqb m "La" then ["L"; "a"]
  else if String.eqb m "PA" then ["P"; "A"]
  else if String.eqb m "RGB" then ["R"; "G"; "B"]
  else if String.eqb m "RGBA" then ["R"; "G"; "B"; "A"]
  else if String.eqb m "RGBa" then ["R"; "G"; "B"; "a"]
  else if String.eqb m "RGBX" then ["R"; "G"; "B"; "X"]
  else if String.eqb m "CMYK" then ["C"; "M"; "Y"; "K"]
  else if String.eqb m "YCbCr" then ["Y"; "Cb"; "Cr"]
  else if String.eqb m "LAB" then ["L"; "A"; "B"]
  else if String.eqb m "HSV" then ["H"; "S"; "V"]
  else [].

(** The modes that carry an alpha band, straight or premultiplied ([LAB]
    has a band named [A], which is a colour axis). *)
Definition has_alpha (im : Image) : bool :=
  let m := mode im in
  String.eqb m "LA" || String.eqb m "La" || String.eqb m "PA"
  || String.eqb m "RGBa" || String.eqb m "RGBA".

(** The filter of the resize that produced the image, if one did. *)
Definition resampled_with (im : Image) : option Resampling :=
  match im with
  | Resize _ resample _ => Some resample
  | _ => None
  end.

(** The image a resize started from. *)
Definition resized_from (im : Image) : option Image :=
  match im with
  | Resize _ _ src => Some src
  | _ => None
  end.

(** ** The file system *)

(** What a regular file holds: an image in some encoding, or bytes that no
    decoder of PIL recognises. *)
Inductive FileData :=
| Encoded (format : string) (optimize : bool) (im : Image)
| Bytes (raw : list Z).

Inductive Node :=
| File (data : FileData)
| Dir.

Abbreviation FS := (gmap Path Node).

(** The root directory always exists. *)
Definition node_at (fs : FS) (p : Path) : option Node :=
  match p with
  | [] => Some Dir
  | _ => fs !! p
  end.

Definition is_dir (fs : FS) (p : Path) : bool :=
  match node_at fs p with
  | Some Dir => true
  | _ => false
  end.

(** ** Exceptions, outcomes and the effect monad *)

Inductive Exn :=
| FileNotFoundError (p : Path)
| FileExistsError (p : Path)
| NotADirectoryError (p : Path)
| IsADirectoryError (p : Path)
| UnidentifiedImageError (p : Path).

Inductive Event :=
| EvPrint (line : string)
| EvExists (p : Path) (found : bool)
| EvMkdir (p : Path)
| EvOpen (p : Path)
| EvSave (p : Path) (data : FileData)
| EvUnlink (p : Path).

Inductive Outcome (A : Type) :=
| Returned (a : A)
| Raised (e : Exn).
Arguments Returned {A} a.
Arguments Raised {A} e.

(** The result of running a computation: how it ended, the file system it
    left, and what it did, in order. *)
Record Run (A : Type) := MkRun {
  outcome : Outcome A;
  final : FS;
  log : list Event
}.
Arguments MkRun {A} _ _ _.
Arguments outcome {A} _.
Arguments final {A} _.
Arguments log {A} _.

Definition M (A : Type) : Type := FS -> Run A.

Definition ret {A} (a : A) : M A := fun fs => MkRun (Returned a) fs [].

Definition raise {A} (e : Exn) : M A := fun fs => MkRun (Raised e) fs [].

(** Sequencing: an exception ends the computation where it is raised; the
    file system keeps what was written before. *)
Definition bind {A B} (m : M A) (k : A -> M B) : M B :=
  fun fs =>
    let r := m fs in
    match outcome r with
    | Returned a =>
        let r' := k a (final r) in
        MkRun (outcome r') (final r') (log r ++ log r')
    | Raised e => MkRun (Raised e) (final r) (log r)
    end.

Notation "'let*' x := m 'in' k" := (bind m (fun x => k))
  (at level 10, x name, m at level 200, k at level 200).
Notation "m >> k" := (bind m (fun _ => k))
  (at level 100, k at level 200, right associativity).

Definition emit (e : Event) : M unit := fun fs => MkRun (Returned tt) fs [e].

(** [print(line)] *)
Definition print (line : string) : M unit := emit (EvPrint line).

(** [p.exists()] *)
Definition exists_ (p : Path) : M bool :=
  fun fs =>
    let found := bool_decide (is_Some (node_at fs p)) in
    MkRun (Returned found) fs [EvExists p found].

(** [os.mkdir(p)] *)
Definition os_mkdir (p : Path) : M unit :=
  fun fs =>
    match node_at fs p with
    | Some _ => MkRun (Raised (FileExistsError p)) fs []
    | None =>
        match node_at fs (parent p) with
        | None => MkRun (Raised (FileNotFoundError p)) fs []
        | Some (File _) => MkRun (Raised (NotADirectoryError p)) fs []
        | Some Dir => MkRun (Returned tt) (<[p := Dir]> fs) [EvMkdir p]
        end
    end.

(** [p.mkdir(parents=False, exist_ok=True)]: [os.mkdir], where an
    [OSError] other than [FileNotFoundError] is dropped when [p] is a
    directory. *)
Definition mkdir_here (p : Path) : M unit :=
  fun fs =>
    let r := os_mkdir p fs in
    match outcome r with
    | Returned _ => r
    | Raised (FileNotFoundError _) => r
    | Raised _ => if is_dir fs p then MkRun (Returned tt) fs [] else r
    end.

(** [p.mkdir(parents=True, exist_ok=True)]: on [FileNotFoundError] the
    parent is created the same way and [os.mkdir] is tried again; the
    root is its own parent and re-raises. *)
Fixpoint mkdir (p : Path) : M unit :=
  fun fs =>
    let r := os_mkdir p fs in
    match outcome r with
    | Returned _ => r
    | Raised (FileNotFoundError _) =>
        match p with
        | [] => r
        | _ :: up => (mkdir up >> mkdir_here p) fs
        end
    | Raised _ => if is_dir fs p then MkRun (Returned tt) fs [] else r
    end.

(** [Image.open(p)] *)
Definition Image_open (p : Path) : M Image :=
  fun fs =>
    match node_at fs p with
    | None => MkRun (Raised (FileNotFoundError p)) fs []
    | Some Dir => MkRun (Raised (IsADirectoryError p)) fs []
    | Some (File (Bytes _)) => MkRun (Raised (UnidentifiedImageError p)) fs []
    | Some (File (Encoded _ _ im)) => MkRun (Returned im) fs [EvOpen p]
    end.

(** [im.save(p, format, optimize=...)]: creates or overwrites the file. *)
Definition save (im : Image) (p : Path) (format : string) (optimize : bool) : M unit :=
  fun fs =>
    match node_at fs p with
    | Some Dir => MkRun (Raised (IsADirectoryError p)) fs []
    | _ =>
        match node_at fs (parent p) with
        | None => MkRun (Raised (FileNotFoundError p)) fs []
        | Some (File _) => MkRun (Raised (NotADirectoryError p)) fs []
        | Some Dir =>
            let data := Encoded format optimize im in
            MkRun (Returned tt) (<[p := File data]> fs) [EvSave p data]
        end
    end.

(** [p.unlink()] *)
Definition unlink (p : Path) : M unit :=
  fun fs =>
    match node_at fs p with
    | None => MkRun (Raised (FileNotFoundError p)) fs []
    | Some Dir => MkRun (Raised (IsADirectoryError p)) fs []
    | Some (File _) => MkRun (Returned tt) (delete p fs) [EvUnlink p]
    end.

(** ** The script *)

Section Script.

(** The location of the script itself. *)
Variable __file__ : Path.

(** Configuration *)
Definition SOURCE_LOGO : Path := (parent (parent __file__) / "logo.png")%path.
Definition PUBLIC_DIR : Path := (parent (parent __file__) / "public")%path.

(** Sizes to generate.  A dict literal with distinct keys; [items] walks it
    in insertion order. *)
Definition SIZES : list (string * Z) :=
  [ ("logo-32.png", 32);
    ("logo-64.png", 64);
    ("logo-128.png", 128);
    ("logo-192.png", 192);
    ("logo-512.png", 512);
    ("favicon.png", 32) ].

Definition items (d : list (string * Z)) : list (string * Z) := d.

(** The body of [for filename, size in SIZES.items()], with the entries
    still to visit, the source image and the list [generated] so far. *)
Fixpoint for_sizes (entries : list (string * Z)) (img : Image)
    (generated : list (string * Z)) : M (list (string * Z)) :=
  match entries with
  | [] => ret generated
  | (filename, size) :: rest =>
      let output_path := (PUBLIC_DIR / filename)%path in
      let resized := resize (size, size) LANCZOS img in
      save resized output_path "PNG" true >>
      let generated := generated ++ [(filename, size)] in
      print ("   ✓ Generated: " +:+ filename +:+ " (" +:+ pretty size +:+ "x"
             +:+ pretty size +:+ ")") >>
      for_sizes rest img generated
  end.

Definition generate_logos : M bool :=
  let* found := exists_ SOURCE_LOGO in
  if negb found then
    print ("❌ Source logo not found: " +:+ str SOURCE_LOGO) >>
    ret false
  else
    mkdir PUBLIC_DIR >>
    print ("📸 Loading source logo: " +:+ str SOURCE_LOGO) >>
    let* img := Image_open SOURCE_LOGO in
    let img := if negb (String.eqb (mode img) "RGBA") then convert "RGBA" img else img in
    let '(source_width, source_height) := size img in
    print ("   Source size: " +:+ pretty source_width +:+ "x" +:+ pretty source_height
           +:+ ", Mode: " +:+ mode img) >>
    let* generated := for_sizes (items SIZES) img [] in
    let old_ico := (PUBLIC_DIR / "favicon.ico")%path in
    let* ico := exists_ old_ico in
    (if ico then
       unlink old_ico >>
       print "   🗑️  Deleted old favicon.ico"
     else ret tt) >>
    print (String (Ascii.ascii_of_nat 10) "" +:+ "✅ Generated " +:+ pretty (Z.of_nat (length generated))
           +:+ " logo files in " +:+ str PUBLIC_DIR +:+ "/") >>
    ret true.

(** [if __name__ == "__main__": generate_logos()]: the value returned is
    dropped; the interpreter exits with 0 when the module body ends and
    with 1 when an exception reaches the top level. *)
Definition main : FS -> Z * FS * list Event :=
  fun fs =>
    let r := generate_logos fs in
    match outcome r with
    | Returned _ => (0, final r, log r)
    | Raised _ => (1, final r, log r)
    end.

End Script.

(** ** Loading the module (lines 10-15)

    [from PIL import Image] is tried; on [ImportError] the script prints
    a line, runs an install command through [os.system], whose exit
    status it drops, and tries the import once more, this time unguarded. *)

(** What a run of the whole script depends on: whether the import of
    [PIL] finds the package, and the file system. *)
Record Env := MkEnv {
  pillow : bool;
  disk : FS
}.

Inductive ScriptEvent :=
| Ran (ev : Event)
| System (command : string).

Section Module.

(** [os.system(command)] runs outside the interpreter: all that is known
    of it is the exit status it reports and the environment it leaves. *)
Variable os_system : string -> Env -> Z * Env.

Variable __file__ : Path.

Definition install_command : string :=
  "python3 -m pip install Pillow -q || pip3 install Pillow -q".

(** [from PIL import Image]: [true] when the name is bound, [false] for
    [ImportError]. *)
Definition from_PIL_import_Image (env : Env) : bool := pillow env.

(** The [try] statement: whether [Image] is bound at its end. *)
Definition import_or_install (env : Env) : bool * Env * list ScriptEvent :=
  if from_PIL_import_Image env then (true, env, [])
  else
    let '(_, env') := os_system install_command env in
    (from_PIL_import_Image env', env',
     [Ran (EvPrint "Installing Pillow..."); System install_command]).

(** The module body, run as [__main__]: an [ImportError] that leaves the
    [except] clause ends the process with status 1. *)
Definition script (env : Env) : Z * Env * list ScriptEvent :=
  let '(imported, env, events) := import_or_install env in
  if imported then
    let '(status, fs, l) := main __file__ (disk env) in
    (status, MkEnv (pillow env) fs, events ++ (Ran <$> l))
  else (1, env, events).

End Module.

(** ** Vocabulary of the statements *)

(** The image the loop works on, for a decoded source [src]. *)
Definition as_rgba (src : Image) : Image :=
  if negb (String.eqb (mode src) "RGBA") then convert "RGBA" src else src.

(** Where a table entry is written, and what is written there. *)
Definition target (file : Path) (e : string * Z) : Path :=
  (PUBLIC_DIR file / e.1)%path.

Definition output_of (img : Image) (e : string * Z) : FileData :=
  Encoded "PNG" true (resize (e.2, e.2) LANCZOS img).

Definition old_ico (file : Path) : Path := (PUBLIC_DIR file / "favicon.ico")%path.

(** The file system after the entries have been written, first to last. *)
Fixpoint write_all (file : Path) (entries : list (string * Z)) (img : Image)
    (fs : FS) : FS :=
  match entries with
  | [] => fs
  | e :: rest => write_all file rest img (<[target file e := File (output_of img e)]> fs)
  end.

(** The paths saved in a log, in order. *)
Fixpoint saved (l : list Event) : list Path :=
  match l with
  | [] => []
  | EvSave p _ :: l => p :: saved l
  | _ :: l => saved l
  end.

(** The run wrote every entry of the table, in table order. *)
Definition processed_all (file : Path) (r : Run bool) : Prop :=
  saved (log r) = target file <$> items SIZES.

(** The event is a check or a removal of path [p]. *)
Definition touches (p : Path) (ev : Event) : Prop :=
  (exists found, ev = EvExists p found) \/ ev = EvUnlink p.

Definition is_mkdir_event (ev : Event) : Prop := exists q, ev = EvMkdir q.

(** The first byte of a printed line. *)
Definition first_byte (ev : Event) : option Ascii.ascii :=
  match ev with
  | EvPrint line => String.get 0 line
  | _ => None
  end.

(** No event of the log checks or removes [p]. *)
Definition quiet (p : Path) (l : list Event) : Prop :=
  Forall (fun ev => ~ touches p ev) l.

(** Every step before the clean-up of the legacy file goes through: the
    source is a decodable image [src], the output directory exists or can
    be created, and no output name is taken by a directory. *)
Definition loop_ready (file : Path) (fs : FS) (src : Image) : Prop :=
  (exists format optimize, fs !! SOURCE_LOGO file = Some (File (Encoded format optimize src)))
  /\ outcome (mkdir (PUBLIC_DIR file) fs) = Returned tt
  /\ (forall e, e ∈ items SIZES -> fs !! target file e <> Some Dir).

(** ... and the legacy file, if there is one, is a regular file. *)
Definition ready (file : Path) (fs : FS) (src : Image) : Prop :=
  loop_ready file fs src /\ fs !! old_ico file <> Some Dir.

(** The lines the script prints. *)
Definition not_found_line (file : Path) : string :=
  "❌ Source logo not found: " +:+ str (SOURCE_LOGO file).
Definition loading_line (file : Path) : string :=
  "📸 Loading source logo: " +:+ str (SOURCE_LOGO file).
Definition source_size_line (img : Image) : string :=
  "   Source size: " +:+ pretty (size img).1 +:+ "x" +:+ pretty (size img).2
  +:+ ", Mode: " +:+ mode img.
Definition generated_line (e : string * Z) : string :=
  "   ✓ Generated: " +:+ e.1 +:+ " (" +:+ pretty e.2 +:+ "x" +:+ pretty e.2 +:+ ")".
Definition deleted_line : string := "   🗑️  Deleted old favicon.ico".
Definition summary_line (file : Path) (generated : list (string * Z)) : string :=
  String (Ascii.ascii_of_nat 10) "" +:+ "✅ Generated "
  +:+ pretty (Z.of_nat (length generated))
  +:+ " logo files in " +:+ str (PUBLIC_DIR file) +:+ "/".

(** What the loop logs for the entries it completes. *)
Fixpoint loop_log (file : Path) (entries : list (string * Z)) (img : Image) : list Event :=
  match entries with
  | [] => []
  | e :: rest =>
      EvSave (target file e) (output_of img e) :: EvPrint (generated_line e)
      :: loop_log file rest img
  end.

(** What is logged up to the start of the loop. *)
Definition head_log (file : Path) (fs : FS) (img : Image) : list Event :=
  EvExists (SOURCE_LOGO file) true :: log (mkdir (PUBLIC_DIR file) fs)
  ++ [EvPrint (loading_line file); EvOpen (SOURCE_LOGO file);
      EvPrint (source_size_line img)].

(** The seven ways a run of [generate_logos] on [fs] can end. *)
Inductive Ends (file : Path) (fs : FS) : Run bool -> Prop :=
| EndsMissing :
    fs !! SOURCE_LOGO file = None ->
    Ends file fs (MkRun (Returned false) fs
      [EvExists (SOURCE_LOGO file) false; EvPrint (not_found_line file)])
| EndsMkdir n e :
    fs !! SOURCE_LOGO file = Some n ->
    outcome (mkdir (PUBLIC_DIR file) fs) = Raised e ->
    Ends file fs (MkRun (Raised e) (final (mkdir (PUBLIC_DIR file) fs))
      (EvExists (SOURCE_LOGO file) true :: log (mkdir (PUBLIC_DIR file) fs)))
| EndsOpen n e :
    fs !! SOURCE_LOGO file = Some n ->
    outcome (Image_open (SOURCE_LOGO file) fs) = Raised e ->
    outcome (mkdir (PUBLIC_DIR file) fs) = Returned tt ->
    Ends file fs (MkRun (Raised e) (final (mkdir (PUBLIC_DIR file) fs))
      (EvExists (SOURCE_LOGO file) true :: log (mkdir (PUBLIC_DIR file) fs)
       ++ [EvPrint (loading_line file)]))
| EndsLoop format optimize src pre e post :
    fs !! SOURCE_LOGO file = Some (File (Encoded format optimize src)) ->
    outcome (mkdir (PUBLIC_DIR file) fs) = Returned tt ->
    items SIZES = pre ++ e :: post ->
    (forall e', e' ∈ pre -> fs !! target file e' <> Some Dir) ->
    fs !! target file e = Some Dir ->
    Ends file fs (MkRun (Raised (IsADirectoryError (target file e)))
      (write_all file pre (as_rgba src) (final (mkdir (PUBLIC_DIR file) fs)))
      (head_log file fs (as_rgba src) ++ loop_log file pre (as_rgba src)))
| EndsNoIco src :
    loop_ready file fs src ->
    fs !! old_ico file = None ->
    Ends file fs (MkRun (Returned true)
      (write_all file (items SIZES) (as_rgba src) (final (mkdir (PUBLIC_DIR file) fs)))
      (head_log file fs (as_rgba src) ++ loop_log file (items SIZES) (as_rgba src)
       ++ [EvExists (old_ico file) false; EvPrint (summary_line file (items SIZES))]))
| EndsIcoDeleted src data :
    loop_ready file fs src ->
    fs !! old_ico file = Some (File data) ->
    Ends file fs (MkRun (Returned true)
      (delete (old_ico file)
         (write_all file (items SIZES) (as_rgba src) (final (mkdir (PUBLIC_DIR file) fs))))
      (head_log file fs (as_rgba src) ++ loop_log file (items SIZES) (as_rgba src)
       ++ [EvExists (old_ico file) true; EvUnlink (old_ico file);
           EvPrint deleted_line; EvPrint (summary_line file (items SIZES))]))
| EndsIcoDir src :
    loop_ready file fs src ->
    fs !! old_ico file = Some Dir ->
    Ends file fs (MkRun (Raised (IsADirectoryError (old_ico file)))
      (write_all file (items SIZES) (as_rgba src) (final (mkdir (PUBLIC_DIR file) fs)))
      (head_log file fs (as_rgba src) ++ loop_log file (items SIZES) (as_rgba src)
       ++ [EvExists (old_ico file) true])).

Definition exit_status (r : Z * FS * list Event) : Z := r.1.1.

(** The lines printed, in order. *)
Fixpoint printed (l : list Event) : list string :=
  match l with
  | [] => []
  | EvPrint line :: l => line :: printed l
  | _ :: l => printed l
  end.

(** The event stays within what the script is for: it reads the source,
    makes the output directory or one above it, writes a table entry into
    the output directory, or checks and removes the legacy file. *)
Definition confined (file : Path) (ev : Event) : Prop :=
  match ev with
  | EvPrint _ => True
  | EvExists p _ => p = SOURCE_LOGO file \/ p = old_ico file
  | EvMkdir p => p `suffix_of` PUBLIC_DIR file
  | EvOpen p => p = SOURCE_LOGO file
  | EvSave p data =>
      exists e img, e ∈ items SIZES /\ p = target file e /\ data = output_of img e
  | EvUnlink p => p = old_ico file
  end.

(** The events of [generate_logos] in the log of the script. *)
Fixpoint ran (l : list ScriptEvent) : list Event :=
  match l with
  | [] => []
  | Ran ev :: l => ev :: ran l
  | System _ :: l => ran l
  end.

(** The commands the script ran, in order. *)
Fixpoint commands (l : list ScriptEvent) : list string :=
  match l with
  | [] => []
  | Ran _ :: l => commands l
  | System command :: l => command :: commands l
  end.

(** ** Fixtures: a checkout at [/repo] *)

Definition demo_file : Path := of_parts ["repo"; "scripts"; "generate-logos.py"].

Definition demo_src : Image := Bitmap "RGB" 2048 2048 [].

(** A fresh checkout: the source logo, no [public] directory yet. *)
Definition demo_fs : FS :=
  {[ of_parts ["repo"] := Dir;
     of_parts ["repo"; "scripts"] := Dir;
     of_parts ["repo"; "scripts"; "generate-logos.py"] := File (Bytes []);
     of_parts ["repo"; "logo.png"] := File (Encoded "PNG" false demo_src) ]}.

(** The same with a legacy [favicon.ico] in [public]. *)
Definition legacy_fs : FS :=
  <[ of_parts ["repo"; "public"; "favicon.ico"] := File (Bytes [0; 0; 1; 0]) ]>
    (<[ of_parts ["repo"; "public"] := Dir ]> demo_fs).

(** The same where [favicon.ico] is a directory. *)
Definition ico_dir_fs : FS :=
  <[ of_parts ["repo"; "public"; "favicon.ico"] := Dir ]>
    (<[ of_parts ["repo"; "public"] := Dir ]> demo_fs).

(** A checkout without [logo.png]. *)
Definition no_logo_fs : FS :=
  {[ of_parts ["repo"] := Dir;
     of_parts ["repo"; "scripts"] := Dir;
     of_parts ["repo"; "scripts"; "generate-logos.py"] := File (Bytes []) ]}.

(** A checkout where the output name [logo-128.png] is a directory. *)
Definition blocked_fs : FS :=
  <[ of_parts ["repo"; "public"; "logo-128.png"] := Dir ]>
    (<[ of_parts ["repo"; "public"] := Dir ]> demo_fs).

(** A checkout whose [logo.png] is no image. *)
Definition garbage_fs : FS :=
  <[ of_parts ["repo"; "logo.png"] := File (Bytes [60; 104; 116; 109; 108; 62]) ]> demo_fs.

(** A checkout where [public] is a regular file. *)
Definition public_file_fs : FS :=
  <[ of_parts ["repo"; "public"] := File (Bytes []) ]> demo_fs.

(** An install command that fails and changes nothing, and one that
    makes the package importable. *)
Definition pip_fails : string -> Env -> Z * Env := fun _ env => (1, env).
Definition pip_installs : string -> Env -> Z * Env :=
  fun _ env => (0, MkEnv true (disk env)).

(** * Properties *)

(** ** The monad and the file-system calls *)

Lemma bind_ok {A B} (m : M A) (k : A -> M B) fs a fs1 l1 r2 :
  m fs = MkRun (Returned a) fs1 l1 ->
  k a fs1 = r2 ->
  bind m k fs = MkRun (outcome r2) (final r2) (l1 ++ log r2).
Proof. intros Hm <-. unfold bind. by rewrite Hm. Qed.

Lemma bind_raised {A B} (m : M A) (k : A -> M B) fs e fs1 l1 :
  m fs = MkRun (Raised e) fs1 l1 ->
  bind m k fs = MkRun (Raised e) fs1 l1.
Proof. intros Hm. unfold bind. by rewrite Hm. Qed.

Lemma run_eta {A} (r : Run A) : r = MkRun (outcome r) (final r) (log r).
Proof. by destruct r. Qed.

Lemma saved_app l1 l2 : saved (l1 ++ l2) = saved l1 ++ saved l2.
Proof.
  induction l1 as [|ev l1 IH]; [done|].
  destruct ev; simpl; by rewrite ?IH.
Qed.

Lemma saved_mkdir_events l : Forall is_mkdir_event l -> saved l = [].
Proof.
  induction 1 as [|ev l [q ->] _ IH]; [done|]. exact IH.
Qed.

(** [os.mkdir] either creates exactly [p], or raises and changes nothing. *)
Lemma os_mkdir_cases p fs :
  (os_mkdir p fs = MkRun (Returned tt) (<[p := Dir]> fs) [EvMkdir p]
   /\ node_at fs p = None /\ node_at fs (parent p) = Some Dir)
  \/ (exists e, os_mkdir p fs = MkRun (Raised e) fs []).
Proof.
  unfold os_mkdir.
  destruct (node_at fs p) as [n|] eqn:Hp; [right; eauto|].
  destruct (node_at fs (parent p)) as [[d|]|] eqn:Hup; [right; eauto|left; done|right; eauto].
Qed.

Lemma node_at_nonroot fs a p : node_at fs (a :: p) = fs !! (a :: p).
Proof. done. Qed.

Lemma is_dir_insert_dir fs p : is_dir (<[p := Dir]> fs) p = true.
Proof.
  unfold is_dir, node_at. destruct p; [done|]. by rewrite lookup_insert_eq.
Qed.

(** The non-recursive [mkdir]: the file system only grows, by [p]. *)
Lemma mkdir_here_spec p fs :
  let r := mkdir_here p fs in
  (forall q n, fs !! q = Some n -> final r !! q = Some n)
  /\ (forall q, q <> p -> final r !! q = fs !! q)
  /\ (outcome r = Returned tt -> is_dir (final r) p = true)
  /\ Forall is_mkdir_event (log r).
Proof.
  unfold mkdir_here.
  destruct (os_mkdir_cases p fs) as [(-> & Hnone & _)|[e ->]]; simpl.
  - split_and!.
    + intros q n Hq. destruct (decide (q = p)) as [->|Hne].
      * destruct p; [|by rewrite node_at_nonroot, Hq in Hnone]. done.
      * by rewrite lookup_insert_ne.
    + intros q Hne. by rewrite lookup_insert_ne.
    + intros _. apply is_dir_insert_dir.
    + repeat constructor. by exists p.
  - destruct e; destruct (is_dir fs p) eqn:Hd; simpl; split_and!; auto; try done.
Qed.

(** [mkdir(parents=True, exist_ok=True)] keeps every node there is,
    touches no path longer than [p], leaves [p] a directory when it
    returns, and does nothing but create directories. *)
Lemma mkdir_spec p : forall fs,
  let r := mkdir p fs in
  (forall q n, fs !! q = Some n -> final r !! q = Some n)
  /\ (forall q, (length p < length q)%nat -> final r !! q = fs !! q)
  /\ (outcome r = Returned tt -> is_dir (final r) p = true)
  /\ Forall is_mkdir_event (log r).
Proof.
  induction p as [|a up IH]; intros fs.
  - simpl. split_and!; auto.
  - cbn [mkdir].
    destruct (os_mkdir_cases (a :: up) fs) as [(-> & Hnone & _)|[e He]].
    + simpl. rewrite node_at_nonroot in Hnone. split_and!.
      * intros q n Hq. rewrite lookup_insert_ne; [done|]. congruence.
      * intros q Hlen. rewrite lookup_insert_ne; [done|].
        intros <-. simpl in Hlen. lia.
      * intros _. apply (is_dir_insert_dir fs (a :: up)).
      * repeat constructor. by exists (a :: up).
    + rewrite He. cbn [outcome].
      assert (Hkeep : forall r : Run unit, r = MkRun (Raised e) fs [] ->
        (forall q n, fs !! q = Some n -> final r !! q = Some n)
        /\ (forall q, (length (a :: up) < length q)%nat -> final r !! q = fs !! q)
        /\ (outcome r = Returned tt -> is_dir (final r) (a :: up) = true)
        /\ Forall is_mkdir_event (log r)).
      { intros r ->. simpl. split_and!; auto. done. }
      assert (Hdrop : forall r : Run unit,
        r = (if is_dir fs (a :: up) then MkRun (Returned tt) fs [] else MkRun (Raised e) fs []) ->
        (forall q n, fs !! q = Some n -> final r !! q = Some n)
        /\ (forall q, (length (a :: up) < length q)%nat -> final r !! q = fs !! q)
        /\ (outcome r = Returned tt -> is_dir (final r) (a :: up) = true)
        /\ Forall is_mkdir_event (log r)).
      { intros r ->. destruct (is_dir fs (a :: up)) eqn:Hd; simpl; split_and!; auto. done. }
      destruct e; try (by apply Hdrop).
      destruct (IH fs) as (Hk1 & Hf1 & Hd1 & Hl1).
      destruct (mkdir_here_spec (a :: up) (final (mkdir up fs))) as (Hk2 & Hf2 & Hd2 & Hl2).
      unfold bind. destruct (outcome (mkdir up fs)) as [[]|e'] eqn:Hout; simpl.
      * split_and!.
        -- intros q n Hq. apply Hk2, Hk1, Hq.
        -- intros q Hlen. rewrite Hf2; [apply Hf1; simpl in Hlen; lia|].
           intros ->. simpl in Hlen. lia.
        -- exact Hd2.
        -- by apply Forall_app.
      * split_and!; auto; [|done]. intros q Hlen. apply Hf1. simpl in Hlen; lia.
Qed.

(** The directory is there already: nothing is raised, nothing changes. *)
Lemma mkdir_existing p fs :
  is_dir fs p = true -> mkdir p fs = MkRun (Returned tt) fs [].
Proof.
  unfold is_dir. intros Hd.
  assert (Hos : os_mkdir p fs = MkRun (Raised (FileExistsError p)) fs []).
  { unfold os_mkdir. by destruct (node_at fs p) as [[|]|]. }
  destruct p; cbn [mkdir]; rewrite Hos; cbn [outcome]; unfold is_dir;
    by destruct (node_at fs _) as [[|]|].
Qed.

(** ** The loop *)

Section Loop.

Variable file : Path.

Lemma target_inj e e' : target file e = target file e' -> e.1 = e'.1.
Proof. unfold target, joinpath. by intros [= ->]. Qed.

Lemma target_not_public e : target file e <> PUBLIC_DIR file.
Proof.
  unfold target, joinpath. intros H. apply (f_equal length) in H. simpl in H. lia.
Qed.

Lemma save_ok im p format optimize fs :
  is_dir fs (parent p) = true -> node_at fs p <> Some Dir ->
  save im p format optimize fs
  = MkRun (Returned tt) (<[p := File (Encoded format optimize im)]> fs)
          [EvSave p (Encoded format optimize im)].
Proof.
  unfold save, is_dir. intros Hup Hp.
  destruct (node_at fs p) as [[|]|]; try done;
    by destruct (node_at fs (parent p)) as [[|]|].
Qed.

Lemma save_onto_dir im p format optimize fs :
  node_at fs p = Some Dir ->
  save im p format optimize fs = MkRun (Raised (IsADirectoryError p)) fs [].
Proof. unfold save. by intros ->. Qed.

Lemma is_dir_public_insert (fs : FS) p (data : FileData) :
  is_dir fs (PUBLIC_DIR file) = true ->
  is_dir (<[(PUBLIC_DIR file / p)%path := File data]> fs) (PUBLIC_DIR file) = true.
Proof.
  unfold is_dir, PUBLIC_DIR, joinpath. rewrite !node_at_nonroot.
  rewrite lookup_insert_ne; [done|].
  intros H. apply (f_equal length) in H. simpl in H. lia.
Qed.

Lemma not_dir_insert_file (fs : FS) p q (data : FileData) :
  fs !! q <> Some Dir -> <[p := File data]> fs !! q <> Some Dir.
Proof.
  intros Hq. destruct (decide (p = q)) as [->|Hne].
  - by rewrite lookup_insert_eq.
  - by rewrite lookup_insert_ne.
Qed.

(** No output name is a directory: the loop writes every entry. *)
Lemma for_sizes_ok entries : forall img generated fs,
  is_dir fs (PUBLIC_DIR file) = true ->
  (forall e, e ∈ entries -> fs !! target file e <> Some Dir) ->
  for_sizes file entries img generated fs
  = MkRun (Returned (generated ++ entries)) (write_all file entries img fs)
          (loop_log file entries img).
Proof.
  induction entries as [|[filename size] rest IH]; intros img generated fs Hpub Hfree.
  - simpl. unfold ret. by rewrite app_nil_r.
  - cbn [for_sizes write_all loop_log].
    etrans.
    { eapply bind_ok; [apply save_ok; [done|apply (Hfree (filename, size)); left]|].
      eapply bind_ok; [reflexivity|]. apply IH.
      - by apply is_dir_public_insert.
      - intros e He. apply not_dir_insert_file, Hfree. by right. }
    cbn [outcome final log]. by rewrite <- app_assoc.
Qed.

(** The first output name that is a directory stops the loop there: the
    exception leaves it, the entries before are written, the ones after
    are not visited. *)
Lemma for_sizes_blocked pre : forall e post img generated fs,
  is_dir fs (PUBLIC_DIR file) = true ->
  (forall e', e' ∈ pre -> fs !! target file e' <> Some Dir) ->
  fs !! target file e = Some Dir ->
  for_sizes file (pre ++ e :: post) img generated fs
  = MkRun (Raised (IsADirectoryError (target file e))) (write_all file pre img fs)
          (loop_log file pre img).
Proof.
  induction pre as [|[filename size] pre IH]; intros e post img generated fs Hpub Hfree Hdir.
  - destruct e as [filename size]. cbn [app for_sizes write_all loop_log].
    erewrite bind_raised; [done|]. by apply save_onto_dir.
  - cbn [app for_sizes write_all loop_log].
    assert (Hne : target file (filename, size) <> target file e).
    { intros Heq. apply (Hfree (filename, size)); [left|]. by rewrite Heq. }
    etrans.
    { eapply bind_ok; [apply save_ok; [done|apply (Hfree (filename, size)); left]|].
      eapply bind_ok; [reflexivity|]. apply IH.
      - by apply is_dir_public_insert.
      - intros e' He'. apply not_dir_insert_file, Hfree. by right.
      - unfold target in Hne. by rewrite lookup_insert_ne. }
    done.
Qed.

(** Either no output name is a directory, or there is a first one. *)
Lemma first_blocked (fs : FS) entries :
  (forall e, e ∈ entries -> fs !! target file e <> Some Dir)
  \/ (exists pre e post, entries = pre ++ e :: post
       /\ (forall e', e' ∈ pre -> fs !! target file e' <> Some Dir)
       /\ fs !! target file e = Some Dir).
Proof.
  induction entries as [|e rest [IH|(pre & e' & post & -> & Hpre & He')]].
  - left. intros e He. by apply elem_of_nil in He.
  - destruct (fs !! target file e) as [[d|]|] eqn:He.
    + left. intros e' [->|Hin]%elem_of_cons; [by rewrite He|by apply IH].
    + right. exists [], e, rest. split_and!; [done| |done].
      intros e' He'. by apply elem_of_nil in He'.
    + left. intros e' [->|Hin]%elem_of_cons; [by rewrite He|by apply IH].
  - destruct (fs !! target file e) as [[d|]|] eqn:He.
    + right. exists (e :: pre), e', post. split_and!; [done| |done].
      intros e'' [->|Hin]%elem_of_cons; [by rewrite He|by apply Hpre].
    + right. exists [], e, (pre ++ e' :: post). split_and!; [done| |done].
      intros e'' He''. by apply elem_of_nil in He''.
    + right. exists (e :: pre), e', post. split_and!; [done| |done].
      intros e'' [->|Hin]%elem_of_cons; [by rewrite He|by apply Hpre].
Qed.

(** *** The file system the loop leaves *)

Lemma write_all_other entries : forall img (fs : FS) q,
  (forall e, e ∈ entries -> target file e <> q) ->
  write_all file entries img fs !! q = fs !! q.
Proof.
  induction entries as [|e rest IH]; intros img fs q Hq; [done|].
  cbn [write_all]. rewrite IH.
  - rewrite lookup_insert_ne; [done|]. apply Hq. by left.
  - intros e' He'. apply Hq. by right.
Qed.

Lemma write_all_lookup entries : forall img (fs : FS) e,
  NoDup entries.*1 -> e ∈ entries ->
  write_all file entries img fs !! target file e = Some (File (output_of img e)).
Proof.
  induction entries as [|e0 rest IH]; intros img fs e Hnd He.
  - by apply elem_of_nil in He.
  - cbn [write_all]. apply NoDup_cons in Hnd as [Hfresh Hnd].
    apply elem_of_cons in He as [->|He]; [|by apply IH].
    rewrite write_all_other; [by rewrite lookup_insert_eq|].
    intros e' He' Heq. apply Hfresh. apply target_inj in Heq as <-.
    by apply list_elem_of_fmap_2.
Qed.

Lemma write_all_id entries : forall img (fs : FS),
  (forall e, e ∈ entries -> fs !! target file e = Some (File (output_of img e))) ->
  write_all file entries img fs = fs.
Proof.
  induction entries as [|e rest IH]; intros img fs Hall; [done|].
  cbn [write_all]. rewrite insert_id; [|apply Hall; by left].
  apply IH. intros e' He'. apply Hall. by right.
Qed.

(** The outputs do not depend on the order of the table. *)
Lemma write_all_permutation (entries entries' : list (string * Z)) (img : Image) (fs : FS) :
  NoDup entries.*1 -> entries ≡ₚ entries' ->
  write_all file entries img fs = write_all file entries' img fs.
Proof.
  intros Hnd Hperm. apply map_eq. intros q.
  assert (Hnd' : NoDup entries'.*1) by (by rewrite <- Hperm).
  destruct (decide (q ∈ target file <$> entries)) as [Hin|Hout].
  - apply list_elem_of_fmap in Hin as (e & -> & He).
    rewrite !write_all_lookup; [done|done| |done|done]. by rewrite <- Hperm.
  - rewrite !write_all_other; [done| |].
    + intros e He <-. apply Hout, list_elem_of_fmap_2. by rewrite Hperm.
    + intros e He <-. by apply Hout, list_elem_of_fmap_2.
Qed.

Lemma saved_loop_log entries img :
  saved (loop_log file entries img) = target file <$> entries.
Proof. induction entries as [|e rest IH]; [done|]. simpl. by rewrite IH. Qed.

End Loop.

(** ** The table *)

Lemma SIZES_keys_distinct : NoDup (items SIZES).*1.
Proof. apply (bool_decide_unpack _). by vm_compute. Qed.

Lemma SIZES_no_ico file e : e ∈ items SIZES -> target file e <> old_ico file.
Proof.
  unfold items, SIZES, target, old_ico, joinpath. intros He [= Hname].
  repeat (apply elem_of_cons in He as [->|He]; [done|]). by apply elem_of_nil in He.
Qed.

(** ** Runs of [generate_logos] *)

Section Run.

Variables (file : Path) (fs : FS).

Local Abbreviation SOURCE := (SOURCE_LOGO file).
Local Abbreviation PUBLIC := (PUBLIC_DIR file).
Local Abbreviation mk := (mkdir (PUBLIC_DIR file) fs).

Lemma node_at_source (m : FS) : node_at m SOURCE = m !! SOURCE.
Proof. done. Qed.

Lemma node_at_inside (m : FS) name : node_at m (PUBLIC / name)%path = m !! (PUBLIC / name)%path.
Proof. done. Qed.

Lemma exists_found (m : FS) p n :
  node_at m p = Some n -> exists_ p m = MkRun (Returned true) m [EvExists p true].
Proof.
  intros Hp. unfold exists_. rewrite Hp.
  by rewrite (bool_decide_eq_true_2 _ (mk_is_Some _ _ eq_refl)).
Qed.

Lemma exists_absent (m : FS) p :
  node_at m p = None -> exists_ p m = MkRun (Returned false) m [EvExists p false].
Proof.
  intros Hp. unfold exists_. rewrite Hp.
  rewrite bool_decide_eq_false_2; [done|]. by intros [? ?].
Qed.

Lemma Image_open_ok (m : FS) p format optimize src :
  node_at m p = Some (File (Encoded format optimize src)) ->
  Image_open p m = MkRun (Returned src) m [EvOpen p].
Proof. unfold Image_open. by intros ->. Qed.

Lemma Image_open_raised (m : FS) p e :
  node_at m p = node_at fs p ->
  outcome (Image_open p fs) = Raised e ->
  Image_open p m = MkRun (Raised e) m [].
Proof.
  unfold Image_open. intros ->.
  destruct (node_at fs p) as [[[]|]|]; simpl; congruence.
Qed.

Lemma unlink_file (m : FS) p data :
  node_at m p = Some (File data) ->
  unlink p m = MkRun (Returned tt) (delete p m) [EvUnlink p].
Proof. unfold unlink. by intros ->. Qed.

Lemma unlink_dir (m : FS) p :
  node_at m p = Some Dir ->
  unlink p m = MkRun (Raised (IsADirectoryError p)) m [].
Proof. unfold unlink. by intros ->. Qed.

Lemma mkdir_returned :
  outcome mk = Returned tt -> mk = MkRun (Returned tt) (final mk) (log mk).
Proof. intros H. rewrite (run_eta mk) at 1. by rewrite H. Qed.

Lemma mkdir_raised e :
  outcome mk = Raised e -> mk = MkRun (Raised e) (final mk) (log mk).
Proof. intros H. rewrite (run_eta mk) at 1. by rewrite H. Qed.

Lemma after_mkdir_source n : fs !! SOURCE = Some n -> final mk !! SOURCE = Some n.
Proof. apply mkdir_spec. Qed.

Lemma after_mkdir_inside name : final mk !! (PUBLIC / name)%path = fs !! (PUBLIC / name)%path.
Proof. apply mkdir_spec. simpl. lia. Qed.

Lemma after_mkdir_public : outcome mk = Returned tt -> is_dir (final mk) PUBLIC = true.
Proof. apply mkdir_spec. Qed.

(** The source is missing: one check, one line, nothing else. *)
Lemma run_missing :
  fs !! SOURCE = None ->
  generate_logos file fs
  = MkRun (Returned false) fs [EvExists SOURCE false; EvPrint (not_found_line file)].
Proof.
  intros Hsrc. unfold generate_logos.
  etrans.
  { eapply bind_ok; [by apply exists_absent|]. cbn [negb].
    eapply bind_ok; [reflexivity|]. reflexivity. }
  done.
Qed.

Lemma run_mkdir_raised n e :
  fs !! SOURCE = Some n ->
  outcome mk = Raised e ->
  generate_logos file fs
  = MkRun (Raised e) (final mk) (EvExists SOURCE true :: log mk).
Proof.
  intros Hsrc Hmk. unfold generate_logos.
  etrans.
  { eapply bind_ok; [by eapply exists_found|]. cbn [negb].
    eapply bind_raised. by apply mkdir_raised. }
  done.
Qed.

Lemma run_open_raised n e :
  fs !! SOURCE = Some n ->
  outcome (Image_open SOURCE fs) = Raised e ->
  outcome mk = Returned tt ->
  generate_logos file fs
  = MkRun (Raised e) (final mk)
      (EvExists SOURCE true :: log mk ++ [EvPrint (loading_line file)]).
Proof.
  intros Hsrc Hopen Hmk. unfold generate_logos.
  etrans.
  { eapply bind_ok; [by eapply exists_found|]. cbn [negb].
    eapply bind_ok; [by apply mkdir_returned|].
    eapply bind_ok; [reflexivity|].
    eapply bind_raised. apply Image_open_raised; [|done].
    rewrite !node_at_source, Hsrc. by apply after_mkdir_source. }
  done.
Qed.

(** The steps from the existence check to the start of the loop, for a
    decodable source. *)
Ltac head_steps Hsz :=
  eapply bind_ok; [by eapply exists_found|]; cbn [negb];
  eapply bind_ok; [by apply mkdir_returned|];
  eapply bind_ok; [reflexivity|];
  eapply bind_ok;
    [eapply Image_open_ok; rewrite node_at_source; by apply after_mkdir_source|];
  cbv zeta; rewrite Hsz;
  eapply bind_ok; [reflexivity|].

Lemma run_blocked format optimize src pre e post :
  fs !! SOURCE = Some (File (Encoded format optimize src)) ->
  outcome mk = Returned tt ->
  items SIZES = pre ++ e :: post ->
  (forall e', e' ∈ pre -> fs !! target file e' <> Some Dir) ->
  fs !! target file e = Some Dir ->
  generate_logos file fs
  = MkRun (Raised (IsADirectoryError (target file e)))
      (write_all file pre (as_rgba src) (final mk))
      (head_log file fs (as_rgba src) ++ loop_log file pre (as_rgba src)).
Proof.
  intros Hsrc Hmk Hsplit Hfree Hdir. unfold generate_logos.
  destruct (size (as_rgba src)) as [w h] eqn:Hwh. unfold as_rgba in Hwh.
  etrans.
  { head_steps Hwh.
    eapply bind_raised. rewrite Hsplit. apply for_sizes_blocked.
    - by apply after_mkdir_public.
    - intros e' He'. unfold target. rewrite after_mkdir_inside. by apply Hfree.
    - unfold target. rewrite after_mkdir_inside. apply Hdir. }
  cbn [outcome final log]. f_equal.
  unfold head_log, source_size_line, as_rgba. rewrite Hwh. simpl.
  by rewrite <- !app_assoc.
Qed.

(** The loop of a ready run. *)
Lemma loop_of_ready src generated :
  loop_ready file fs src ->
  for_sizes file (items SIZES) (as_rgba src) generated (final mk)
  = MkRun (Returned (generated ++ items SIZES))
      (write_all file (items SIZES) (as_rgba src) (final mk))
      (loop_log file (items SIZES) (as_rgba src)).
Proof.
  intros (_ & Hmk & Hfree). apply for_sizes_ok.
  - by apply after_mkdir_public.
  - intros e He. unfold target. rewrite after_mkdir_inside. by apply Hfree.
Qed.

(** The legacy file is where it was when the loop is over. *)
Lemma ico_after_loop src :
  write_all file (items SIZES) (as_rgba src) (final mk) !! old_ico file
  = fs !! old_ico file.
Proof.
  rewrite write_all_other; [apply after_mkdir_inside|]. apply SIZES_no_ico.
Qed.

Lemma run_no_ico src :
  loop_ready file fs src ->
  fs !! old_ico file = None ->
  generate_logos file fs
  = MkRun (Returned true)
      (write_all file (items SIZES) (as_rgba src) (final mk))
      (head_log file fs (as_rgba src) ++ loop_log file (items SIZES) (as_rgba src)
       ++ [EvExists (old_ico file) false; EvPrint (summary_line file (items SIZES))]).
Proof.
  intros Hready Hico. pose proof Hready as ((format & optimize & Hsrc) & Hmk & Hfree).
  unfold generate_logos.
  destruct (size (as_rgba src)) as [w h] eqn:Hwh. unfold as_rgba in Hwh.
  assert (Hnode : node_at (write_all file (items SIZES) (as_rgba src) (final mk))
            (PUBLIC / "favicon.ico")%path = None).
  { exact (eq_trans (ico_after_loop src) Hico). }
  etrans.
  { head_steps Hwh.
    eapply bind_ok; [exact (loop_of_ready src _ Hready)|].
    eapply bind_ok; [exact (exists_absent _ _ Hnode)|].
    eapply bind_ok; [reflexivity|].
    eapply bind_ok; [reflexivity|]. reflexivity. }
  cbn [outcome final log]. f_equal.
  unfold head_log, source_size_line, as_rgba. rewrite Hwh. simpl.
  by rewrite <- !app_assoc.
Qed.

Lemma run_ico_deleted src data :
  loop_ready file fs src ->
  fs !! old_ico file = Some (File data) ->
  generate_logos file fs
  = MkRun (Returned true)
      (delete (old_ico file) (write_all file (items SIZES) (as_rgba src) (final mk)))
      (head_log file fs (as_rgba src) ++ loop_log file (items SIZES) (as_rgba src)
       ++ [EvExists (old_ico file) true; EvUnlink (old_ico file);
           EvPrint deleted_line; EvPrint (summary_line file (items SIZES))]).
Proof.
  intros Hready Hico. pose proof Hready as ((format & optimize & Hsrc) & Hmk & Hfree).
  unfold generate_logos.
  destruct (size (as_rgba src)) as [w h] eqn:Hwh. unfold as_rgba in Hwh.
  assert (Hnode : node_at (write_all file (items SIZES) (as_rgba src) (final mk))
            (PUBLIC / "favicon.ico")%path = Some (File data)).
  { exact (eq_trans (ico_after_loop src) Hico). }
  etrans.
  { head_steps Hwh.
    eapply bind_ok; [exact (loop_of_ready src _ Hready)|].
    eapply bind_ok; [exact (exists_found _ _ _ Hnode)|].
    eapply bind_ok.
    { etrans.
      { eapply bind_ok; [exact (unlink_file _ _ _ Hnode)|]. reflexivity. }
      reflexivity. }
    eapply bind_ok; [reflexivity|]. reflexivity. }
  cbn [outcome final log]. f_equal.
  unfold head_log, source_size_line, as_rgba. rewrite Hwh. simpl.
  by rewrite <- !app_assoc.
Qed.

Lemma run_ico_dir src :
  loop_ready file fs src ->
  fs !! old_ico file = Some Dir ->
  generate_logos file fs
  = MkRun (Raised (IsADirectoryError (old_ico file)))
      (write_all file (items SIZES) (as_rgba src) (final mk))
      (head_log file fs (as_rgba src) ++ loop_log file (items SIZES) (as_rgba src)
       ++ [EvExists (old_ico file) true]).
Proof.
  intros Hready Hico. pose proof Hready as ((format & optimize & Hsrc) & Hmk & Hfree).
  unfold generate_logos.
  destruct (size (as_rgba src)) as [w h] eqn:Hwh. unfold as_rgba in Hwh.
  assert (Hnode : node_at (write_all file (items SIZES) (as_rgba src) (final mk))
            (PUBLIC / "favicon.ico")%path = Some Dir).
  { exact (eq_trans (ico_after_loop src) Hico). }
  etrans.
  { head_steps Hwh.
    eapply bind_ok; [exact (loop_of_ready src _ Hready)|].
    eapply bind_ok; [exact (exists_found _ _ _ Hnode)|].
    eapply bind_raised.
    eapply bind_raised. exact (unlink_dir _ _ Hnode). }
  cbn [outcome final log]. f_equal.
  unfold head_log, source_size_line, as_rgba. rewrite Hwh. simpl.
  by rewrite <- !app_assoc.
Qed.

(** Every run ends in one of the seven ways. *)
Lemma generate_logos_ends : Ends file fs (generate_logos file fs).
Proof.
  destruct (fs !! SOURCE) as [n|] eqn:Hsrc;
    [|rewrite run_missing by done; by constructor].
  destruct (outcome mk) as [[]|e] eqn:Hmk;
    [|erewrite run_mkdir_raised by done; by econstructor].
  assert (Hopen : forall e, outcome (Image_open SOURCE fs) = Raised e ->
            Ends file fs (generate_logos file fs)).
  { intros e He. erewrite run_open_raised by done. by econstructor. }
  destruct n as [[format optimize src|raw]|];
    [|eapply Hopen; unfold Image_open; rewrite node_at_source, Hsrc; reflexivity..].
  clear Hopen.
  destruct (first_blocked file fs (items SIZES))
    as [Hfree|(pre & e & post & Hsplit & Hfree & Hdir)];
    [|erewrite run_blocked by done; by econstructor].
  assert (Hready : loop_ready file fs src) by (split_and!; eauto).
  destruct (fs !! old_ico file) as [[data|]|] eqn:Hico.
  - erewrite run_ico_deleted by done. by econstructor.
  - erewrite run_ico_dir by done. by econstructor.
  - erewrite run_no_ico by done. by econstructor.
Qed.

End Run.

(** ** What a ready run leaves behind *)

Section Ready.

Variables (file : Path) (fs : FS) (src : Image).
Hypothesis Hready : ready file fs src.

Local Abbreviation img := (as_rgba src).

(** A ready run returns [True], whether the legacy file is there or not. *)
Lemma ready_returns_true : outcome (generate_logos file fs) = Returned true.
Proof.
  destruct Hready as [Hloop Hico].
  destruct (fs !! old_ico file) as [[data|]|] eqn:Hlook; [|done|].
  - by erewrite run_ico_deleted.
  - by erewrite run_no_ico.
Qed.

(** It leaves the six files of the loop, less the legacy file. *)
Lemma ready_final :
  final (generate_logos file fs)
  = delete (old_ico file)
      (write_all file (items SIZES) img (final (mkdir (PUBLIC_DIR file) fs))).
Proof.
  destruct Hready as [Hloop Hico].
  destruct (fs !! old_ico file) as [[data|]|] eqn:Hlook; [|done|].
  - by erewrite run_ico_deleted.
  - erewrite run_no_ico by done. cbn [final].
    rewrite delete_id; [done|]. by rewrite ico_after_loop.
Qed.

Lemma ready_output e :
  e ∈ items SIZES ->
  final (generate_logos file fs) !! target file e = Some (File (output_of img e)).
Proof.
  intros He. rewrite ready_final.
  rewrite lookup_delete_ne by (intros Heq; by apply (SIZES_no_ico file e)).
  apply write_all_lookup; [apply SIZES_keys_distinct|done].
Qed.

Lemma ready_processed_all : processed_all file (generate_logos file fs).
Proof.
  destruct Hready as [Hloop Hico]. pose proof Hloop as (_ & Hmk & _).
  assert (Hhead : saved (head_log file fs img) = []).
  { unfold head_log. cbn [saved]. rewrite saved_app. cbn [saved].
    rewrite saved_mkdir_events; [done|]. apply mkdir_spec. }
  unfold processed_all.
  destruct (fs !! old_ico file) as [[data|]|] eqn:Hlook; [|done|].
  - erewrite run_ico_deleted by done. cbn [log].
    by rewrite !saved_app, Hhead, saved_loop_log, app_nil_r.
  - erewrite run_no_ico by done. cbn [log].
    by rewrite !saved_app, Hhead, saved_loop_log, app_nil_r.
Qed.

End Ready.

Lemma as_rgba_mode src : mode (as_rgba src) = "RGBA".
Proof.
  unfold as_rgba. destruct (String.eqb (mode src) "RGBA") eqn:Heq; [|done].
  by apply String.eqb_eq in Heq.
Qed.

Lemma no_alpha_converted src : has_alpha src = false -> as_rgba src = convert "RGBA" src.
Proof.
  unfold has_alpha, as_rgba. intros H.
  destruct (String.eqb (mode src) "RGBA"); [|done].
  by rewrite !orb_true_r in H.
Qed.

(** The fixtures are ready. *)
Lemma demo_ready : ready demo_file demo_fs demo_src.
Proof.
  split; [split_and!|].
  - exists "PNG", false. by vm_compute.
  - by vm_compute.
  - intros e He. unfold items, SIZES in He.
    repeat (apply elem_of_cons in He as [->|He]; [by vm_compute|]).
    by apply elem_of_nil in He.
  - by vm_compute.
Qed.

(** ** The script on the fixtures *)

(** The scenario of a 2048x2048 opaque source on a fresh checkout. *)
Example demo_run_saves :
  outcome (generate_logos demo_file demo_fs) = Returned true
  /\ saved (log (generate_logos demo_file demo_fs))
     = [ of_parts ["repo"; "public"; "logo-32.png"];
         of_parts ["repo"; "public"; "logo-64.png"];
         of_parts ["repo"; "public"; "logo-128.png"];
         of_parts ["repo"; "public"; "logo-192.png"];
         of_parts ["repo"; "public"; "logo-512.png"];
         of_parts ["repo"; "public"; "favicon.png"] ].
Proof. split; vm_compute; reflexivity. Qed.

Example demo_run_last_line :
  last (log (generate_logos demo_file demo_fs))
  = Some (EvPrint (String (Ascii.ascii_of_nat 10) ""
                   +:+ "✅ Generated 6 logo files in /repo/public/")).
Proof. vm_compute. reflexivity. Qed.

(** A legacy [favicon.ico] is unlinked after the sixth save. *)
Example legacy_run_unlinks :
  final (generate_logos demo_file legacy_fs) !! old_ico demo_file = None
  /\ drop 16 (log (generate_logos demo_file legacy_fs))
     = [ EvExists (old_ico demo_file) true; EvUnlink (old_ico demo_file);
         EvPrint deleted_line; EvPrint (summary_line demo_file (items SIZES)) ].
Proof. split; vm_compute; reflexivity. Qed.

(** [logo-128.png] is a directory: the third save raises, two files are
    written, the rest of the table is not visited. *)
Example blocked_run_stops :
  outcome (generate_logos demo_file blocked_fs)
  = Raised (IsADirectoryError (of_parts ["repo"; "public"; "logo-128.png"]))
  /\ saved (log (generate_logos demo_file blocked_fs))
     = [ of_parts ["repo"; "public"; "logo-32.png"];
         of_parts ["repo"; "public"; "logo-64.png"] ]
  /\ exit_status (main demo_file blocked_fs) = 1.
Proof. split_and!; vm_compute; reflexivity. Qed.

(** * The claims *)

(** C1: for every valid decodable source image (square or not), when the
    output directory exists or can be made and no output name (nor
    [favicon.ico]) is taken by a directory, the run returns [True] and
    leaves, for each of the six entries of the fixed table (logo-32.png:32, logo-64.png:64, logo-128.png:128,
    logo-192.png:192, logo-512.png:512, favicon.png:32), a PNG file in the
    output directory holding an image of exactly that edge length in both
    dimensions, in mode RGBA with its 4 bands, produced by a resize with
    the LANCZOS filter. *)
Theorem outputs_square_rgba_png_lanczos file fs src :
  ready file fs src ->
  let r := generate_logos file fs in
  items SIZES = [("logo-32.png", 32); ("logo-64.png", 64); ("logo-128.png", 128);
                 ("logo-192.png", 192); ("logo-512.png", 512); ("favicon.png", 32)]
  /\ outcome r = Returned true
  /\ forall filename n, (filename, n) ∈ items SIZES ->
       exists im,
         final r !! (PUBLIC_DIR file / filename)%path = Some (File (Encoded "PNG" true im))
         /\ size im = (n, n)
         /\ mode im = "RGBA"
         /\ getbands im = ["R"; "G"; "B"; "A"]
         /\ resampled_with im = Some LANCZOS.
Proof.
  intros Hready r. split_and!; [done|by eapply ready_returns_true|].
  intros filename n He.
  exists (resize (n, n) LANCZOS (as_rgba src)). split_and!.
  - apply (ready_output file fs src Hready (filename, n) He).
  - done.
  - apply as_rgba_mode.
  - unfold getbands. cbn [mode resize]. by rewrite as_rgba_mode.
  - done.
Qed.

Lemma outputs_square_rgba_png_lanczos_witness :
  ready demo_file demo_fs demo_src
  /\ let r := generate_logos demo_file demo_fs in
     outcome r = Returned true
     /\ exists im,
          final r !! (PUBLIC_DIR demo_file / "logo-192.png")%path
            = Some (File (Encoded "PNG" true im))
          /\ size im = (192, 192) /\ mode im = "RGBA".
Proof.
  split; [exact demo_ready|].
  destruct (outputs_square_rgba_png_lanczos demo_file demo_fs demo_src demo_ready)
    as (_ & Hret & Hout).
  split; [exact Hret|].
  destruct (Hout "logo-192.png" 192) as (im & Hfile & Hsize & Hmode & _).
  - unfold items, SIZES. do 3 right. left.
  - exists im. split; [exact Hfile|]. split; [exact Hsize|exact Hmode].
Defined.

(** C2: when the source file does not exist at the expected path, the run
    prints the line naming that path, returns [False], and does nothing
    else: the file system is the one it started from and the log holds the
    existence check and the printed line only (no directory made, no file
    saved or removed). *)
Theorem missing_source_reports_and_fails file fs :
  fs !! SOURCE_LOGO file = None ->
  let r := generate_logos file fs in
  outcome r = Returned false
  /\ final r = fs
  /\ log r = [EvExists (SOURCE_LOGO file) false;
              EvPrint ("❌ Source logo not found: " +:+ str (SOURCE_LOGO file))]
  /\ saved (log r) = [].
Proof.
  intros Hmissing r. subst r. by rewrite run_missing.
Qed.

Lemma missing_source_reports_and_fails_witness :
  no_logo_fs !! SOURCE_LOGO demo_file = None
  /\ outcome (generate_logos demo_file no_logo_fs) = Returned false
  /\ final (generate_logos demo_file no_logo_fs) = no_logo_fs.
Proof.
  assert (Hmissing : no_logo_fs !! SOURCE_LOGO demo_file = None)
    by (vm_compute; reflexivity).
  split; [exact Hmissing|].
  destruct (missing_source_reports_and_fails demo_file no_logo_fs Hmissing)
    as (Hret & Hfinal & _).
  split; [exact Hret|exact Hfinal].
Defined.

(** C4: in a ready run, a source whose mode lacks an alpha channel is
    converted to RGBA, and the conversion comes before every resize: each of the six outputs
    is a resize of the converted image.  For every source, with alpha or
    without, the image the loop resizes and all six outputs have an alpha
    channel. *)
Theorem alpha_conversion_precedes_resize file fs src :
  ready file fs src ->
  let r := generate_logos file fs in
  (has_alpha src = false -> as_rgba src = convert "RGBA" src)
  /\ has_alpha (as_rgba src) = true
  /\ forall e, e ∈ items SIZES ->
       exists im,
         final r !! target file e = Some (File (Encoded "PNG" true im))
         /\ resized_from im = Some (as_rgba src)
         /\ has_alpha im = true.
Proof.
  intros Hready r.
  assert (Halpha : has_alpha (as_rgba src) = true).
  { unfold has_alpha. rewrite as_rgba_mode. reflexivity. }
  split_and!; [apply no_alpha_converted|exact Halpha|].
  intros e He. exists (resize (e.2, e.2) LANCZOS (as_rgba src)). split_and!.
  - apply (ready_output file fs src Hready e He).
  - done.
  - exact Halpha.
Qed.

Lemma alpha_conversion_precedes_resize_witness :
  ready demo_file demo_fs demo_src
  /\ has_alpha demo_src = false
  /\ exists im,
       final (generate_logos demo_file demo_fs) !! target demo_file ("favicon.png", 32)
         = Some (File (Encoded "PNG" true im))
       /\ resized_from im = Some (convert "RGBA" demo_src)
       /\ has_alpha im = true.
Proof.
  split; [exact demo_ready|]. split; [reflexivity|].
  destruct (alpha_conversion_precedes_resize demo_file demo_fs demo_src demo_ready)
    as (_ & _ & Hout).
  destruct (Hout ("favicon.png", 32)) as (im & Hfile & Hfrom & Halpha).
  - unfold items, SIZES. do 5 right. left.
  - exists im. split; [exact Hfile|]. split; [exact Hfrom|exact Halpha].
Defined.

(** C10: images are values, and the loop resizes the one image it was
    given: in a ready run every output is the resize, to its own edge length, of the
    decoded source after the one conversion, never of an earlier output.
    The content of an output is thus a function of the source and the
    edge length, and visiting the table in another order leaves the same
    files. *)
Theorem outputs_depend_on_source_and_size file fs src :
  ready file fs src ->
  let r := generate_logos file fs in
  (forall e, e ∈ items SIZES ->
     final r !! target file e
     = Some (File (Encoded "PNG" true (resize (e.2, e.2) LANCZOS (as_rgba src)))))
  /\ (forall table generated (m : FS),
        table ≡ₚ items SIZES ->
        is_dir m (PUBLIC_DIR file) = true ->
        (forall e, e ∈ items SIZES -> m !! target file e <> Some Dir) ->
        final (for_sizes file table (as_rgba src) generated m)
        = final (for_sizes file (items SIZES) (as_rgba src) generated m)).
Proof.
  intros Hready r. split.
  - intros e He. apply (ready_output file fs src Hready e He).
  - intros table generated m Hperm Hpub Hfree.
    rewrite !for_sizes_ok; try done.
    + cbn [final]. apply write_all_permutation; [|done].
      rewrite Hperm. apply SIZES_keys_distinct.
    + intros e He. apply Hfree. by rewrite <- Hperm.
Qed.

Lemma outputs_depend_on_source_and_size_witness :
  ready demo_file demo_fs demo_src
  /\ final (generate_logos demo_file demo_fs) !! target demo_file ("logo-512.png", 512)
     = Some (File (Encoded "PNG" true
                     (resize (512, 512) LANCZOS (convert "RGBA" demo_src)))).
Proof.
  split; [exact demo_ready|].
  destruct (outputs_depend_on_source_and_size demo_file demo_fs demo_src demo_ready)
    as (Hout & _).
  apply (Hout ("logo-512.png", 512)).
  unfold items, SIZES. do 4 right. left.
Defined.

(** ** Running again on what a run left *)

Lemma returns_true_ready file fs :
  outcome (generate_logos file fs) = Returned true -> exists src, ready file fs src.
Proof.
  pose proof (generate_logos_ends file fs) as Hends.
  destruct Hends as [|? ? ? ?|? ? ? ? ?|? ? ? ? ? ? ? ? ? ? ?|src Hloop Hico|src data Hloop Hico|];
    cbn [outcome]; intros Hret; try discriminate.
  - exists src. split; [done|]. by rewrite Hico.
  - exists src. split; [done|]. by rewrite Hico.
Qed.

Section Settled.

Variables (file : Path) (m : FS) (src : Image).
Hypothesis Hsrc :
  exists format optimize, m !! SOURCE_LOGO file = Some (File (Encoded format optimize src)).
Hypothesis Hpub : is_dir m (PUBLIC_DIR file) = true.
Hypothesis Hout :
  forall e, e ∈ items SIZES -> m !! target file e = Some (File (output_of (as_rgba src) e)).
Hypothesis Hico : m !! old_ico file = None.

Lemma settled_ready : ready file m src.
Proof.
  split; [split_and!|].
  - exact Hsrc.
  - by rewrite mkdir_existing.
  - intros e He. by rewrite Hout.
  - by rewrite Hico.
Qed.

(** The outputs are in place and the legacy file is gone: a run changes
    nothing. *)
Lemma settled_fixed_point : final (generate_logos file m) = m.
Proof.
  rewrite (ready_final file m src settled_ready).
  rewrite mkdir_existing by done. cbn [final].
  rewrite write_all_id by done. by apply delete_id.
Qed.

End Settled.

Lemma source_not_ico file : SOURCE_LOGO file <> old_ico file.
Proof.
  unfold SOURCE_LOGO, old_ico, PUBLIC_DIR, joinpath. intros H.
  apply (f_equal length) in H. simpl in H. lia.
Qed.

Lemma public_not_ico file : PUBLIC_DIR file <> old_ico file.
Proof.
  unfold old_ico, joinpath. intros H.
  apply (f_equal length) in H. simpl in H. lia.
Qed.

Lemma target_not_source file e : target file e <> SOURCE_LOGO file.
Proof.
  unfold target, SOURCE_LOGO, PUBLIC_DIR, joinpath. intros H.
  apply (f_equal length) in H. simpl in H. lia.
Qed.

(** What a ready run leaves is settled. *)
Lemma ready_leaves_settled file fs src :
  ready file fs src ->
  let m := final (generate_logos file fs) in
  (exists format optimize, m !! SOURCE_LOGO file = Some (File (Encoded format optimize src)))
  /\ is_dir m (PUBLIC_DIR file) = true
  /\ (forall e, e ∈ items SIZES -> m !! target file e = Some (File (output_of (as_rgba src) e)))
  /\ m !! old_ico file = None.
Proof.
  intros Hready m. pose proof Hready as [((format & optimize & Hsrc) & Hmk & _) _].
  split_and!.
  - exists format, optimize. subst m. rewrite (ready_final file fs src Hready).
    rewrite lookup_delete_ne by (by apply not_eq_sym, source_not_ico).
    rewrite write_all_other by (intros e _; apply target_not_source).
    by apply after_mkdir_source.
  - subst m. rewrite (ready_final file fs src Hready).
    pose proof (after_mkdir_public file fs Hmk) as Hpub.
    unfold is_dir in *. unfold PUBLIC_DIR, joinpath in *. rewrite node_at_nonroot in *.
    rewrite lookup_delete_ne by (by apply not_eq_sym, (public_not_ico file)).
    by rewrite write_all_other by (intros e _; apply (target_not_public file)).
  - intros e He. by apply ready_output.
  - subst m. rewrite (ready_final file fs src Hready). apply lookup_delete_eq.
Qed.

Lemma save_in_loop_log file entries img e :
  e ∈ entries ->
  EvSave (target file e) (output_of img e) ∈ loop_log file entries img.
Proof.
  induction entries as [|e0 rest IH]; intros He; [by apply elem_of_nil in He|].
  cbn [loop_log]. apply elem_of_cons in He as [->|He]; [by left|].
  right. right. by apply IH.
Qed.

(** C9: a run on what a successful run left returns [True] again and
    leaves the file system as it found it.  Each of the six outputs is on
    disk after the first run, the second run saves the same content over
    it, under the same name, and it is on disk after the second run; and
    creating the output directory never raises when the directory is
    there: the call returns having changed and logged nothing. *)
Theorem second_run_is_idempotent file fs :
  outcome (generate_logos file fs) = Returned true ->
  let first := generate_logos file fs in
  let second := generate_logos file (final first) in
  outcome second = Returned true
  /\ processed_all file second
  /\ final second = final first
  /\ (exists format optimize src,
        fs !! SOURCE_LOGO file = Some (File (Encoded format optimize src))
        /\ forall e, e ∈ items SIZES ->
             final first !! target file e = Some (File (output_of (as_rgba src) e))
             /\ EvSave (target file e) (output_of (as_rgba src) e) ∈ log second
             /\ final second !! target file e = Some (File (output_of (as_rgba src) e)))
  /\ is_dir (final first) (PUBLIC_DIR file) = true
  /\ forall p (m : FS), is_dir m p = true -> mkdir p m = MkRun (Returned tt) m [].
Proof.
  intros Hret first second.
  destruct (returns_true_ready file fs Hret) as [src Hready].
  destruct (ready_leaves_settled file fs src Hready) as (Hsrc & Hpub & Hout & Hico).
  fold first in Hsrc, Hpub, Hout, Hico.
  pose proof (settled_ready file (final first) src Hsrc Hpub Hout Hico) as Hagain.
  assert (Hsame : final second = final first) by (by eapply settled_fixed_point).
  split_and!.
  - by eapply ready_returns_true.
  - by eapply ready_processed_all.
  - exact Hsame.
  - destruct Hready as [((format & optimize & Hfile) & _) _].
    exists format, optimize, src. split; [exact Hfile|].
    intros e He. split_and!.
    + by apply Hout.
    + subst second. destruct Hagain as [Hloop _].
      rewrite (run_no_ico file (final first) src Hloop Hico). cbn [log].
      apply elem_of_app. right. apply elem_of_app. left.
      by apply save_in_loop_log.
    + rewrite Hsame. by apply Hout.
  - exact Hpub.
  - apply mkdir_existing.
Qed.

Lemma second_run_is_idempotent_witness :
  outcome (generate_logos demo_file legacy_fs) = Returned true
  /\ outcome (generate_logos demo_file (final (generate_logos demo_file legacy_fs)))
     = Returned true
  /\ final (generate_logos demo_file (final (generate_logos demo_file legacy_fs)))
     = final (generate_logos demo_file legacy_fs)
  /\ final (generate_logos demo_file legacy_fs) !! target demo_file ("logo-32.png", 32)
     = Some (File (output_of (as_rgba demo_src) ("logo-32.png", 32)))
  /\ final (generate_logos demo_file (final (generate_logos demo_file legacy_fs)))
       !! target demo_file ("logo-32.png", 32)
     = Some (File (output_of (as_rgba demo_src) ("logo-32.png", 32))).
Proof.
  assert (Hret : outcome (generate_logos demo_file legacy_fs) = Returned true)
    by (vm_compute; reflexivity).
  split; [exact Hret|].
  destruct (second_run_is_idempotent demo_file legacy_fs Hret)
    as (Hagain & _ & Hsame & (format & optimize & src & Hsrc & Hdisk) & _).
  split; [exact Hagain|]. split; [exact Hsame|].
  assert (Hdemo : legacy_fs !! SOURCE_LOGO demo_file
                  = Some (File (Encoded "PNG" false demo_src)))
    by (vm_compute; reflexivity).
  rewrite Hdemo in Hsrc. injection Hsrc as _ _ <-.
  destruct (Hdisk ("logo-32.png", 32)) as (Hfirst & _ & Hsecond).
  - unfold items, SIZES. left.
  - split; [exact Hfirst|exact Hsecond].
Defined.

(** ** Where the legacy file enters the log *)

Section Quiet.

Variable file : Path.

Local Abbreviation ico := (old_ico file).

Lemma quiet_no_touch l pre ev post :
  quiet ico l -> l = pre ++ ev :: post -> touches ico ev -> False.
Proof.
  intros Hq -> Hev. apply Forall_app in Hq as [_ Hq].
  apply Forall_cons in Hq as [Hq _]. by apply Hq.
Qed.

(** A touching event of [l1 ++ l2] behind a quiet [l1] lies in [l2]. *)
Lemma touch_after_quiet l1 : forall l2 pre ev post,
  quiet ico l1 -> l1 ++ l2 = pre ++ ev :: post -> touches ico ev ->
  exists pre', pre = l1 ++ pre' /\ l2 = pre' ++ ev :: post.
Proof.
  induction l1 as [|x l1 IH]; intros l2 pre ev post Hq Heq Hev.
  - exists pre. by split.
  - apply Forall_cons in Hq as [Hx Hq]. destruct pre as [|y pre].
    + simpl in Heq. injection Heq as -> _. by destruct Hx.
    + simpl in Heq. injection Heq as -> Heq.
      destruct (IH l2 pre ev post Hq Heq Hev) as (pre' & -> & ->).
      by exists pre'.
Qed.

Lemma saved_before_touch l1 l2 pre ev post :
  quiet ico l1 -> saved l2 = [] ->
  l1 ++ l2 = pre ++ ev :: post -> touches ico ev ->
  saved pre = saved l1.
Proof.
  intros Hq Hl2 Heq Hev.
  destruct (touch_after_quiet l1 l2 pre ev post Hq Heq Hev) as (pre' & -> & ->).
  rewrite saved_app in Hl2. apply app_eq_nil in Hl2 as [Hpre' _].
  by rewrite saved_app, Hpre', app_nil_r.
Qed.

Lemma quiet_mkdir_events l : Forall is_mkdir_event l -> quiet ico l.
Proof.
  intros Hl. eapply Forall_impl; [exact Hl|].
  intros ev [q ->] [[found Hev]|Hev]; discriminate.
Qed.

Lemma quiet_head_log fs img : quiet ico (head_log file fs img).
Proof.
  unfold head_log. apply Forall_cons. split.
  - intros [[found Hev]|Hev]; [|discriminate].
    injection Hev as Hp _. by apply (source_not_ico file).
  - apply Forall_app. split; [apply quiet_mkdir_events, mkdir_spec|].
    repeat apply Forall_cons_2; [..|apply Forall_nil_2];
      intros [[found Hev]|Hev]; discriminate.
Qed.

Lemma quiet_loop_log entries img : quiet ico (loop_log file entries img).
Proof.
  induction entries as [|e rest IH]; [apply Forall_nil_2|].
  cbn [loop_log]. repeat apply Forall_cons_2; [..|exact IH];
    intros [[found Hev]|Hev]; discriminate.
Qed.

Lemma saved_head_log fs img : saved (head_log file fs img) = [].
Proof.
  unfold head_log. cbn [saved]. rewrite saved_app. cbn [saved].
  rewrite saved_mkdir_events; [done|]. apply mkdir_spec.
Qed.

End Quiet.

(** ** Which runs write the whole table, and which return *)

Section Verdict.

Variables (file : Path) (fs : FS).

Local Abbreviation r := (generate_logos file fs).
Local Abbreviation ico := (old_ico file).

Lemma quiet_not_unlink l ev : quiet ico l -> ev ∈ l -> ev <> EvUnlink ico.
Proof.
  intros Hq Hin ->. unfold quiet in Hq. rewrite Forall_forall in Hq.
  apply (Hq _ Hin). by right.
Qed.

Lemma prefix_not_all pre e post :
  items SIZES = pre ++ e :: post ->
  target file <$> pre <> target file <$> items SIZES.
Proof.
  intros -> Heq. apply (f_equal length) in Heq.
  rewrite !length_fmap, length_app in Heq. simpl in Heq. lia.
Qed.

(** The six saves are in the log exactly when the loop could run and no
    output name was a directory. *)
Lemma processed_all_iff : processed_all file r <-> exists src, loop_ready file fs src.
Proof.
  unfold processed_all. split.
  - pose proof (generate_logos_ends file fs) as Hends.
    destruct Hends as [|? ? ? ?|? ? ? ? ?|? ? ? pre e post ? ? Hsplit ? ?|src Hloop Hico
                       |src data Hloop Hico|src Hloop Hico];
      cbn [log]; eauto.
    + intros [=].
    + cbn [saved]. rewrite saved_mkdir_events by apply mkdir_spec. intros [=].
    + cbn [saved]. rewrite saved_app, saved_mkdir_events by apply mkdir_spec. intros [=].
    + rewrite saved_app, saved_head_log, saved_loop_log. intros Heq.
      by destruct (prefix_not_all pre e post Hsplit).
  - intros [src Hloop].
    destruct (fs !! ico) as [[data|]|] eqn:Hico.
    + erewrite run_ico_deleted by done. cbn [log].
      by rewrite !saved_app, saved_head_log, saved_loop_log, app_nil_r.
    + erewrite run_ico_dir by done. cbn [log].
      by rewrite !saved_app, saved_head_log, saved_loop_log, app_nil_r.
    + erewrite run_no_ico by done. cbn [log].
      by rewrite !saved_app, saved_head_log, saved_loop_log, app_nil_r.
Qed.

Lemma returns_false_iff : outcome r = Returned false <-> fs !! SOURCE_LOGO file = None.
Proof.
  split; [|intros Hsrc; by rewrite run_missing].
  pose proof (generate_logos_ends file fs) as Hends.
  destruct Hends; cbn [outcome]; intros Hret; done.
Qed.

(** The saves of any run are an initial segment of the table. *)
Lemma saved_initial_segment :
  exists k, saved (log r) = take k (target file <$> items SIZES).
Proof.
  assert (Hfull : forall src, loop_ready file fs src ->
            saved (log r) = take 6 (target file <$> items SIZES)).
  { intros src Hloop. apply processed_all_iff. by exists src. }
  pose proof (generate_logos_ends file fs) as Hends.
  destruct Hends as [|? ? ? ?|? ? ? ? ?|? ? ? pre e post ? ? Hsplit ? ?|src Hloop Hico
                     |src data Hloop Hico|src Hloop Hico];
    try (exists 6%nat; erewrite <- Hfull by done; reflexivity).
  - by exists 0%nat.
  - exists 0%nat. cbn [log saved]. by rewrite saved_mkdir_events by apply mkdir_spec.
  - exists 0%nat. cbn [log saved].
    by rewrite saved_app, saved_mkdir_events by apply mkdir_spec.
  - exists (length pre). cbn [log].
    rewrite saved_app, saved_head_log, saved_loop_log, Hsplit, fmap_app. cbn [app].
    rewrite take_app_length'; [done|by rewrite length_fmap].
Qed.

End Verdict.

(** On every file system: before any event of the log that checks or
    unlinks the legacy [favicon.ico], the six outputs have been saved;
    after a run that returned [True] it is absent; when it is absent at
    the start no unlink is attempted. *)
Lemma ico_touched_only_after_saves file fs :
  let r := generate_logos file fs in
  (forall pre ev post,
     log r = pre ++ ev :: post -> touches (old_ico file) ev ->
     saved pre = target file <$> items SIZES)
  /\ (outcome r = Returned true -> final r !! old_ico file = None)
  /\ (fs !! old_ico file = None ->
      (forall ev, ev ∈ log r -> ev <> EvUnlink (old_ico file))
      /\ (processed_all file r -> outcome r = Returned true)).
Proof.
  intros r. subst r. split_and!.
  - pose proof (generate_logos_ends file fs) as Hends.
    destruct Hends as [|? ? ? ?|? ? ? ? ?|? ? ? pre0 e post0 ? ? Hsplit ? ?|src Hloop Hico
                       |src data Hloop Hico|src Hloop Hico];
      cbn [log]; intros pre ev post Hlog Hev.
    + exfalso. eapply quiet_no_touch; [|exact Hlog|exact Hev].
      repeat apply Forall_cons_2; [..|apply Forall_nil_2];
        intros [[found Hx]|Hx]; discriminate.
    + exfalso. eapply quiet_no_touch; [|exact Hlog|exact Hev].
      apply Forall_cons_2; [|apply quiet_mkdir_events, mkdir_spec].
      intros [[found Hx]|Hx]; discriminate.
    + exfalso. eapply quiet_no_touch; [|exact Hlog|exact Hev].
      apply Forall_cons_2; [|apply Forall_app_2].
      * intros [[found Hx]|Hx]; discriminate.
      * apply quiet_mkdir_events, mkdir_spec.
      * apply Forall_cons_2; [|apply Forall_nil_2].
        intros [[found Hx]|Hx]; discriminate.
    + exfalso. eapply quiet_no_touch; [|exact Hlog|exact Hev].
      apply Forall_app_2; [apply quiet_head_log|apply quiet_loop_log].
    + rewrite app_assoc in Hlog.
      erewrite saved_before_touch; [|..|exact Hlog|exact Hev];
        [|apply Forall_app_2; [apply quiet_head_log|apply quiet_loop_log]|done].
      by rewrite saved_app, saved_head_log, saved_loop_log.
    + rewrite app_assoc in Hlog.
      erewrite saved_before_touch; [|..|exact Hlog|exact Hev];
        [|apply Forall_app_2; [apply quiet_head_log|apply quiet_loop_log]|done].
      by rewrite saved_app, saved_head_log, saved_loop_log.
    + rewrite app_assoc in Hlog.
      erewrite saved_before_touch; [|..|exact Hlog|exact Hev];
        [|apply Forall_app_2; [apply quiet_head_log|apply quiet_loop_log]|done].
      by rewrite saved_app, saved_head_log, saved_loop_log.
  - intros Hret. destruct (returns_true_ready file fs Hret) as [src Hready].
    by destruct (ready_leaves_settled file fs src Hready) as (_ & _ & _ & Hgone).
  - intros Habsent. split.
    + pose proof (generate_logos_ends file fs) as Hends.
      destruct Hends as [|? ? ? ?|? ? ? ? ?|? ? ? pre0 e post0 ? ? Hsplit ? ?|src Hloop Hico
                         |src data Hloop Hico|src Hloop Hico];
        cbn [log]; intros ev Hin; try congruence.
      * repeat (apply elem_of_cons in Hin as [->|Hin]; [done|]).
        by apply elem_of_nil in Hin.
      * apply elem_of_cons in Hin as [->|Hin]; [done|].
        eapply quiet_not_unlink; [|exact Hin]. apply quiet_mkdir_events, mkdir_spec.
      * apply elem_of_cons in Hin as [->|Hin]; [done|].
        apply elem_of_app in Hin as [Hin|Hin].
        -- eapply quiet_not_unlink; [|exact Hin]. apply quiet_mkdir_events, mkdir_spec.
        -- apply elem_of_cons in Hin as [->|Hin]; [done|]. by apply elem_of_nil in Hin.
      * eapply quiet_not_unlink; [|exact Hin].
        apply Forall_app_2; [apply quiet_head_log|apply quiet_loop_log].
      * rewrite app_assoc in Hin. apply elem_of_app in Hin as [Hin|Hin].
        -- eapply quiet_not_unlink; [|exact Hin].
           apply Forall_app_2; [apply quiet_head_log|apply quiet_loop_log].
        -- repeat (apply elem_of_cons in Hin as [->|Hin]; [done|]).
           by apply elem_of_nil in Hin.
    + intros [src Hloop]%processed_all_iff.
      apply (ready_returns_true file fs src). split; [done|]. by rewrite Habsent.
Qed.

Lemma legacy_ready : ready demo_file legacy_fs demo_src.
Proof.
  split; [split_and!|].
  - exists "PNG", false. vm_compute. reflexivity.
  - vm_compute. reflexivity.
  - intros e He. unfold items, SIZES in He.
    repeat (apply elem_of_cons in He as [->|He]; [vm_compute; discriminate|]).
    by apply elem_of_nil in He.
  - vm_compute. discriminate.
Qed.

(** C5: on a file system where the steps before it go through (the source
    decodes, the output directory is there or can be made, no output name
    is a directory) and [favicon.ico] is absent or a regular file, the
    run returns [True], with the six outputs saved and [favicon.ico]
    absent afterwards.  The legacy file is checked once the six saves are
    in the log, and it is unlinked exactly when it was there: when it is
    absent the unlink is skipped and the run returns [True] all the same.
    On any file system, no check or unlink of it comes before the six
    saves. *)
Theorem legacy_ico_removed_after_loop file fs src :
  ready file fs src ->
  let r := generate_logos file fs in
  outcome r = Returned true
  /\ processed_all file r
  /\ final r !! old_ico file = None
  /\ (EvUnlink (old_ico file) ∈ log r <-> is_Some (fs !! old_ico file))
  /\ (exists pre post,
        log r = pre ++ EvExists (old_ico file) (bool_decide (is_Some (fs !! old_ico file)))
                       :: post
        /\ saved pre = target file <$> items SIZES)
  /\ (forall fs' pre ev post,
        log (generate_logos file fs') = pre ++ ev :: post ->
        touches (old_ico file) ev ->
        saved pre = target file <$> items SIZES).
Proof.
  intros Hready r. pose proof Hready as [Hloop Hnodir]. subst r.
  assert (Hsaved : saved (head_log file fs (as_rgba src)
                          ++ loop_log file (items SIZES) (as_rgba src))
                   = target file <$> items SIZES).
  { by rewrite saved_app, saved_head_log, saved_loop_log. }
  split_and!.
  - by eapply ready_returns_true.
  - by eapply ready_processed_all.
  - by destruct (ready_leaves_settled file fs src Hready) as (_ & _ & _ & Hgone).
  - destruct (fs !! old_ico file) as [[data|]|] eqn:Hico; [|done|].
    + rewrite (run_ico_deleted file fs src data Hloop Hico). cbn [log].
      split; [by eauto|]. intros _.
      apply elem_of_app. right. apply elem_of_app. right. right. left.
    + split; [|by intros [? ?]]. intros Hin.
      destruct (ico_touched_only_after_saves file fs) as (_ & _ & Habsent).
      destruct (Habsent Hico) as [Hnone _]. by destruct (Hnone _ Hin).
  - exists (head_log file fs (as_rgba src) ++ loop_log file (items SIZES) (as_rgba src)).
    destruct (fs !! old_ico file) as [[data|]|] eqn:Hico; [|done|].
    + rewrite (run_ico_deleted file fs src data Hloop Hico). cbn [log].
      eexists. split; [|exact Hsaved].
      rewrite bool_decide_eq_true_2 by eauto. by rewrite <- app_assoc.
    + rewrite (run_no_ico file fs src Hloop Hico). cbn [log].
      eexists. split; [|exact Hsaved].
      rewrite bool_decide_eq_false_2 by (by intros [? ?]). by rewrite <- app_assoc.
  - intros fs' pre ev post.
    destruct (ico_touched_only_after_saves file fs') as (Hafter & _ & _).
    apply Hafter.
Qed.

Lemma legacy_ico_removed_after_loop_witness :
  (ready demo_file legacy_fs demo_src
   /\ is_Some (legacy_fs !! old_ico demo_file)
   /\ outcome (generate_logos demo_file legacy_fs) = Returned true
   /\ final (generate_logos demo_file legacy_fs) !! old_ico demo_file = None
   /\ EvUnlink (old_ico demo_file) ∈ log (generate_logos demo_file legacy_fs))
  /\ (ready demo_file demo_fs demo_src
      /\ demo_fs !! old_ico demo_file = None
      /\ outcome (generate_logos demo_file demo_fs) = Returned true
      /\ EvUnlink (old_ico demo_file) ∉ log (generate_logos demo_file demo_fs)).
Proof.
  split.
  - assert (Hthere : is_Some (legacy_fs !! old_ico demo_file)).
    { exists (File (Bytes [0; 0; 1; 0])). vm_compute. reflexivity. }
    split; [exact legacy_ready|]. split; [exact Hthere|].
    destruct (legacy_ico_removed_after_loop demo_file legacy_fs demo_src legacy_ready)
      as (Hret & _ & Hgone & Hunlink & _).
    split; [exact Hret|]. split; [exact Hgone|]. apply Hunlink. exact Hthere.
  - assert (Habsent : demo_fs !! old_ico demo_file = None) by (vm_compute; reflexivity).
    split; [exact demo_ready|]. split; [exact Habsent|].
    destruct (legacy_ico_removed_after_loop demo_file demo_fs demo_src demo_ready)
      as (Hret & _ & _ & Hunlink & _).
    split; [exact Hret|]. intros Hin. apply Hunlink in Hin.
    rewrite Habsent in Hin. destruct Hin as [node Hnode]. discriminate Hnode.
Defined.

(** C3, as stated, at a checkout whose [public/favicon.ico] is a
    directory: the six entries are all processed, and the run does not
    return [True] (the unlink raises), so "returns [True] if and only if
    it processes all six entries" fails from right to left. *)
Lemma all_processed_yet_not_true :
  ~ (outcome (generate_logos demo_file ico_dir_fs) = Returned true
     <-> processed_all demo_file (generate_logos demo_file ico_dir_fs)).
Proof.
  intros [_ Hback].
  assert (Hall : processed_all demo_file (generate_logos demo_file ico_dir_fs))
    by (vm_compute; reflexivity).
  specialize (Hback Hall). vm_compute in Hback. discriminate Hback.
Qed.

(** C3, amended: the run returns [True] exactly when it processes all six
    entries and the removal of the legacy file does not raise; it returns
    [False] exactly when the source file is missing; the saves of any run
    are an initial segment of the table, so no entry is skipped; and an
    error in the loop (an output name that is a directory) leaves the
    function as that exception, with the entries before it saved and none
    after. *)
Theorem returns_true_iff_processed_and_cleaned file fs :
  let r := generate_logos file fs in
  (outcome r = Returned true
   <-> processed_all file r /\ outcome r <> Raised (IsADirectoryError (old_ico file)))
  /\ (outcome r = Returned false <-> fs !! SOURCE_LOGO file = None)
  /\ (exists k, saved (log r) = take k (target file <$> items SIZES))
  /\ (forall format optimize src pre e post,
        fs !! SOURCE_LOGO file = Some (File (Encoded format optimize src)) ->
        outcome (mkdir (PUBLIC_DIR file) fs) = Returned tt ->
        items SIZES = pre ++ e :: post ->
        (forall e', e' ∈ pre -> fs !! target file e' <> Some Dir) ->
        fs !! target file e = Some Dir ->
        outcome r = Raised (IsADirectoryError (target file e))
        /\ saved (log r) = target file <$> pre).
Proof.
  intros r. subst r. split_and!.
  - split.
    + intros Hret. destruct (returns_true_ready file fs Hret) as [src Hready].
      split; [by eapply ready_processed_all|]. by rewrite Hret.
    + intros [[src Hloop]%processed_all_iff Hclean].
      destruct (fs !! old_ico file) as [[data|]|] eqn:Hico.
      * by erewrite run_ico_deleted.
      * erewrite run_ico_dir in Hclean by done. by destruct Hclean.
      * by erewrite run_no_ico.
  - apply returns_false_iff.
  - apply saved_initial_segment.
  - intros format optimize src pre e post Hsrc Hmk Hsplit Hfree Hdir.
    erewrite run_blocked by done. cbn [outcome log]. split; [done|].
    by rewrite saved_app, saved_head_log, saved_loop_log.
Qed.

(** C6, as stated, at a checkout without [logo.png]: [generate_logos]
    returns [False] and the process still exits with status 0. *)
Lemma false_exits_zero :
  ~ ((outcome (generate_logos demo_file no_logo_fs) = Returned true ->
      exit_status (main demo_file no_logo_fs) = 0)
     /\ (outcome (generate_logos demo_file no_logo_fs) = Returned false ->
         exit_status (main demo_file no_logo_fs) <> 0)).
Proof.
  intros [_ Hfalse]. apply Hfalse; vm_compute; reflexivity.
Qed.

(** C6, amended: the exit status does not reflect the boolean.  The
    process exits with 0 whenever [generate_logos] returns, [True] or
    [False], and with 1 exactly when an exception leaves it. *)
Theorem exit_status_ignores_result file fs :
  let r := generate_logos file fs in
  (forall b, outcome r = Returned b -> exit_status (main file fs) = 0)
  /\ (forall e, outcome r = Raised e -> exit_status (main file fs) = 1)
  /\ (exit_status (main file fs) = 0 <-> exists b, outcome r = Returned b).
Proof.
  intros r. subst r. unfold main, exit_status.
  destruct (outcome (generate_logos file fs)) as [b|e]; cbn [fst]; split_and!.
  - done.
  - intros e [=].
  - split; [eauto|done].
  - intros b' [=].
  - done.
  - split; [done|]. intros [b' [=]].
Qed.

Lemma loop_log_no_blank_line file entries img line :
  first_byte (EvPrint line) = Some (Ascii.ascii_of_nat 10) ->
  EvPrint line ∉ loop_log file entries img.
Proof.
  intros Hline. induction entries as [|e rest IH]; [apply not_elem_of_nil|].
  cbn [loop_log]. intros Hin.
  apply elem_of_cons in Hin as [Heq|Hin]; [discriminate Heq|].
  apply elem_of_cons in Hin as [Heq|Hin]; [|by apply IH].
  apply (f_equal first_byte) in Heq. rewrite Hline in Heq.
  simpl in Heq. discriminate Heq.
Qed.

Lemma summary_line_first_byte file generated :
  first_byte (EvPrint (summary_line file generated)) = Some (Ascii.ascii_of_nat 10).
Proof. reflexivity. Qed.

(** C7, as stated, at a checkout whose [public/favicon.ico] is a
    directory: the unlink raises [IsADirectoryError], and [generate_logos]
    does not return [True]. *)
Lemma failed_unlink_is_fatal :
  outcome (unlink (old_ico demo_file) ico_dir_fs)
    = Raised (IsADirectoryError (old_ico demo_file))
  /\ outcome (generate_logos demo_file ico_dir_fs) <> Returned true.
Proof.
  split; [vm_compute; reflexivity|].
  intros Hret. vm_compute in Hret. discriminate Hret.
Qed.

(** C7, amended: the removal of the legacy file is not guarded.  When the
    six outputs are written and [favicon.ico] cannot be unlinked (it is a
    directory), the exception leaves [generate_logos]: the function does
    not return, the six outputs stay written, the legacy entry stays, and
    the closing summary line is not printed. *)
Theorem failed_unlink_propagates file fs src :
  loop_ready file fs src ->
  fs !! old_ico file = Some Dir ->
  let r := generate_logos file fs in
  outcome r = Raised (IsADirectoryError (old_ico file))
  /\ processed_all file r
  /\ (forall e, e ∈ items SIZES ->
        final r !! target file e = Some (File (output_of (as_rgba src) e)))
  /\ final r !! old_ico file = Some Dir
  /\ EvPrint (summary_line file (items SIZES)) ∉ log r.
Proof.
  intros Hloop Hico r.
  assert (Hall : processed_all file r) by (apply processed_all_iff; by exists src).
  subst r. erewrite run_ico_dir in * by done. cbn [outcome final log].
  split_and!; [done|done| | |].
  - intros e He. apply write_all_lookup; [apply SIZES_keys_distinct|done].
  - by rewrite ico_after_loop.
  - generalize (summary_line_first_byte file (items SIZES)).
    generalize (summary_line file (items SIZES)). intros line Hline Hin.
    unfold head_log in Hin.
    apply elem_of_cons in Hin as [?|Hin]; [done|].
    rewrite !elem_of_app in Hin. destruct Hin as [[Hin|Hin]|[Hin|Hin]].
    + pose proof (mkdir_spec (PUBLIC_DIR file) fs) as (_ & _ & _ & Hmk).
      rewrite Forall_forall in Hmk. by destruct (Hmk _ Hin).
    + repeat (apply elem_of_cons in Hin as [Heq|Hin];
                [apply (f_equal first_byte) in Heq; rewrite Hline in Heq;
                 simpl in Heq; discriminate Heq|]).
      by apply elem_of_nil in Hin.
    + by apply (loop_log_no_blank_line file (items SIZES) (as_rgba src) line).
    + apply elem_of_cons in Hin as [?|Hin]; [done|]. by apply elem_of_nil in Hin.
Qed.

Lemma ico_dir_loop_ready : loop_ready demo_file ico_dir_fs demo_src.
Proof.
  split_and!.
  - exists "PNG", false. vm_compute. reflexivity.
  - vm_compute. reflexivity.
  - intros e He. unfold items, SIZES in He.
    repeat (apply elem_of_cons in He as [->|He]; [vm_compute; discriminate|]).
    by apply elem_of_nil in He.
Qed.

Lemma failed_unlink_propagates_witness :
  loop_ready demo_file ico_dir_fs demo_src
  /\ ico_dir_fs !! old_ico demo_file = Some Dir
  /\ outcome (generate_logos demo_file ico_dir_fs)
     = Raised (IsADirectoryError (old_ico demo_file))
  /\ processed_all demo_file (generate_logos demo_file ico_dir_fs).
Proof.
  assert (Hico : ico_dir_fs !! old_ico demo_file = Some Dir) by (vm_compute; reflexivity).
  split; [exact ico_dir_loop_ready|]. split; [exact Hico|].
  destruct (failed_unlink_propagates demo_file ico_dir_fs demo_src ico_dir_loop_ready Hico)
    as (Hraised & Hall & _).
  split; [exact Hraised|exact Hall].
Defined.

(** C8, as stated, for the script at [/repo/scripts/generate-logos.py]:
    the output directory is [/repo/public], not the [public] one level
    above the script, [/repo/scripts/public]. *)
Lemma public_dir_not_one_level_up :
  ~ (SOURCE_LOGO demo_file = (parent (parent demo_file) / "logo.png")%path
     /\ PUBLIC_DIR demo_file = (parent demo_file / "public")%path).
Proof. intros [_ Hpub]. vm_compute in Hpub. discriminate Hpub. Qed.

(** C8, amended: the source path and the output directory are resolved
    against the same anchor, two [parent] steps above the script file:
    for a script at [anchor/dir/name] they are [anchor/logo.png] and
    [anchor/public]. *)
Theorem paths_share_anchor anchor dir name :
  let file := of_parts (anchor ++ [dir; name]) in
  SOURCE_LOGO file = of_parts (anchor ++ ["logo.png"])
  /\ PUBLIC_DIR file = of_parts (anchor ++ ["public"])
  /\ parent (SOURCE_LOGO file) = parent (parent file)
  /\ parent (PUBLIC_DIR file) = parent (parent file).
Proof.
  intros file. subst file.
  unfold SOURCE_LOGO, PUBLIC_DIR, of_parts, joinpath, parent.
  rewrite !rev_app_distr. cbn [rev app tail]. done.
Qed.

(** * Further properties of the script *)

(** ** More on [mkdir] *)

Lemma mkdir_here_cases p fs :
  (mkdir_here p fs = MkRun (Returned tt) (<[p := Dir]> fs) [EvMkdir p]
   /\ node_at fs p = None)
  \/ mkdir_here p fs = MkRun (Returned tt) fs []
  \/ (exists e, mkdir_here p fs = MkRun (Raised e) fs []
       /\ (forall q, e = FileNotFoundError q -> is_dir fs (parent p) = false)).
Proof.
  unfold mkdir_here, os_mkdir, is_dir.
  destruct (node_at fs p) as [[d|]|] eqn:Hp; cbn [outcome].
  - right. right. eexists. split; [done|]. intros q [=].
  - right. by left.
  - destruct (node_at fs (parent p)) as [[d|]|] eqn:Hup; cbn [outcome].
    + right. right. eexists. split; [done|]. intros q [=].
    + left. done.
    + right. right. eexists. split; [done|]. done.
Qed.

(** What [mkdir(parents=True, exist_ok=True)] adds is a directory at [p]
    or above it; it logs those and nothing else; and it never raises
    [FileNotFoundError]. *)
Lemma mkdir_effects p : forall fs,
  let r := mkdir p fs in
  (forall q, fs !! q = None ->
     final r !! q = None \/ (q `suffix_of` p /\ final r !! q = Some Dir))
  /\ Forall (fun ev => exists q, ev = EvMkdir q /\ q `suffix_of` p) (log r)
  /\ (forall q, outcome r <> Raised (FileNotFoundError q)).
Proof.
  induction p as [|a up IH]; intros fs.
  - simpl. split_and!; auto.
  - cbn [mkdir].
    destruct (os_mkdir_cases (a :: up) fs) as [(-> & Hnone & _)|[e He]].
    + simpl. split_and!.
      * intros q Hq. destruct (decide (q = a :: up)) as [->|Hne].
        -- right. split; [done|]. by rewrite lookup_insert_eq.
        -- left. by rewrite lookup_insert_ne.
      * repeat constructor. by exists (a :: up).
      * intros q [=].
    + rewrite He. cbn [outcome].
      assert (Hdrop : forall r : Run unit,
        (forall q, e <> FileNotFoundError q) ->
        r = (if is_dir fs (a :: up) then MkRun (Returned tt) fs [] else MkRun (Raised e) fs []) ->
        (forall q, fs !! q = None ->
           final r !! q = None \/ (q `suffix_of` a :: up /\ final r !! q = Some Dir))
        /\ Forall (fun ev => exists q, ev = EvMkdir q /\ q `suffix_of` a :: up) (log r)
        /\ (forall q, outcome r <> Raised (FileNotFoundError q))).
      { intros r Hne ->. destruct (is_dir fs (a :: up)); simpl; split_and!; auto.
        intros q [= ->]. by destruct (Hne q). }
      destruct e; try (apply Hdrop; [intros q [=]|done]).
      destruct (IH fs) as (Hn1 & Hl1 & He1).
      pose proof (mkdir_spec up fs) as (_ & _ & Hd1 & _).
      unfold bind. destruct (outcome (mkdir up fs)) as [[]|e'] eqn:Hout; cbn [outcome final log].
      * specialize (Hd1 eq_refl).
        assert (Hwide : Forall (fun ev => exists q, ev = EvMkdir q /\ q `suffix_of` a :: up)
                          (log (mkdir up fs))).
        { eapply Forall_impl; [exact Hl1|]. intros ev (q & -> & Hq).
          exists q. split; [done|]. by apply suffix_cons_r. }
        destruct (mkdir_here_cases (a :: up) (final (mkdir up fs)))
          as [[-> Hfree]|[->|(e & -> & Hnf)]]; cbn [outcome final log].
        -- split_and!.
           ++ intros q Hq. destruct (decide (q = a :: up)) as [->|Hne].
              ** right. split; [done|]. by rewrite lookup_insert_eq.
              ** rewrite lookup_insert_ne by done.
                 destruct (Hn1 q Hq) as [Hq'|[Hsuf Hq']]; [by left|right].
                 split; [by apply suffix_cons_r|done].
           ++ apply Forall_app_2; [done|]. repeat constructor. by exists (a :: up).
           ++ intros q [=].
        -- split_and!.
           ++ intros q Hq. destruct (Hn1 q Hq) as [Hq'|[Hsuf Hq']]; [by left|right].
              split; [by apply suffix_cons_r|done].
           ++ by rewrite app_nil_r.
           ++ intros q [=].
        -- split_and!.
           ++ intros q Hq. destruct (Hn1 q Hq) as [Hq'|[Hsuf Hq']]; [by left|right].
              split; [by apply suffix_cons_r|done].
           ++ by rewrite app_nil_r.
           ++ intros q [= ->]. specialize (Hnf _ eq_refl). simpl in Hnf. congruence.
      * split_and!.
        -- intros q Hq. destruct (Hn1 q Hq) as [Hq'|[Hsuf Hq']]; [by left|right].
           split; [by apply suffix_cons_r|done].
        -- eapply Forall_impl; [exact Hl1|]. intros ev (q & -> & Hq).
           exists q. split; [done|]. by apply suffix_cons_r.
        -- intros q [= ->]. by destruct (He1 q).
Qed.

(** ** What a run leaves of the file system it found *)

Section Frame.

Variables (file : Path) (fs : FS).

Local Abbreviation mk := (mkdir (PUBLIC_DIR file) fs).

Lemma write_all_cases entries : forall img (m : FS) q,
  write_all file entries img m !! q = m !! q
  \/ exists e, e ∈ entries /\ q = target file e
       /\ write_all file entries img m !! q = Some (File (output_of img e)).
Proof.
  induction entries as [|e0 rest IH]; intros img m q; [by left|].
  cbn [write_all].
  destruct (IH img (<[target file e0 := File (output_of img e0)]> m) q)
    as [Hsame|(e & He & -> & Hq)].
  - rewrite Hsame. destruct (decide (target file e0 = q)) as [<-|Hne].
    + right. exists e0. split_and!; [by left|done|by rewrite lookup_insert_eq].
    + left. by rewrite lookup_insert_ne.
  - right. exists e. split_and!; [by right|done|done].
Qed.

(** Nodes away from the outputs survive the directory creation and any
    part of the loop. *)
Lemma kept_through_loop entries img q n :
  fs !! q = Some n ->
  (forall e, e ∈ entries -> q <> target file e) ->
  write_all file entries img (final mk) !! q = Some n.
Proof.
  intros Hq Hother. rewrite write_all_other.
  - by apply mkdir_spec.
  - intros e He Heq. by apply (Hother e He).
Qed.

(** What is new after the directory creation and any part of the loop is
    an output of the table or a directory on the way to [public]. *)
Lemma new_through_loop entries img q :
  (forall e, e ∈ entries -> e ∈ items SIZES) ->
  fs !! q = None ->
  let m := write_all file entries img (final mk) in
  m !! q = None
  \/ (exists e img, e ∈ items SIZES /\ q = target file e
        /\ m !! q = Some (File (output_of img e)))
  \/ (q `suffix_of` PUBLIC_DIR file /\ m !! q = Some Dir).
Proof.
  intros Hsub Hq m. subst m.
  destruct (write_all_cases entries img (final mk) q) as [->|(e & He & -> & Hlook)].
  - destruct (mkdir_effects (PUBLIC_DIR file) fs) as (Hnew & _ & _).
    destruct (Hnew q Hq) as [Hnone|Hdir]; [by left|by right; right].
  - right. left. exists e, img. split_and!; [by apply Hsub|done|done].
Qed.

End Frame.

(** X1: whatever the outcome of the run, a node that was there before, at
    a path that is neither one of the six outputs nor [favicon.ico], is
    there afterwards, unchanged. *)
Theorem other_nodes_are_kept file fs q n :
  fs !! q = Some n ->
  (forall e, e ∈ items SIZES -> q <> target file e) ->
  q <> old_ico file ->
  final (generate_logos file fs) !! q = Some n.
Proof.
  intros Hq Hother Hico.
  pose proof (generate_logos_ends file fs) as Hends.
  destruct Hends as [|? ? ? ?|? ? ? ? ?|? ? ? pre e post ? ? Hsplit ? ?|src Hloop Hnone
                     |src data Hloop Hfile|src Hloop Hdir];
    cbn [final].
  - done.
  - by apply mkdir_spec.
  - by apply mkdir_spec.
  - apply kept_through_loop; [done|]. intros e' He'. apply Hother.
    rewrite Hsplit. apply elem_of_app. by left.
  - by apply kept_through_loop.
  - rewrite lookup_delete_ne by done. by apply kept_through_loop.
  - by apply kept_through_loop.
Qed.

Lemma other_nodes_are_kept_witness :
  demo_fs !! demo_file = Some (File (Bytes []))
  /\ final (generate_logos demo_file demo_fs) !! demo_file = Some (File (Bytes [])).
Proof.
  assert (Hq : demo_fs !! demo_file = Some (File (Bytes []))) by (vm_compute; reflexivity).
  split; [exact Hq|].
  apply (other_nodes_are_kept demo_file demo_fs demo_file _ Hq).
  - intros e He. unfold items, SIZES in He.
    repeat (apply elem_of_cons in He as [->|He]; [vm_compute; discriminate|]).
    by apply elem_of_nil in He.
  - vm_compute. discriminate.
Defined.

(** X2: whatever the outcome of the run, a path that held nothing before
    holds nothing afterwards, or one of the six outputs, or a directory
    that is [public] or lies above it. *)
Theorem new_nodes_are_outputs_or_directories file fs q :
  fs !! q = None ->
  let m := final (generate_logos file fs) in
  m !! q = None
  \/ (exists e img, e ∈ items SIZES /\ q = target file e
        /\ m !! q = Some (File (output_of img e)))
  \/ (q `suffix_of` PUBLIC_DIR file /\ m !! q = Some Dir).
Proof.
  intros Hq m. subst m.
  pose proof (generate_logos_ends file fs) as Hends.
  destruct Hends as [|? ? ? ?|? ? ? ? ?|? ? ? pre e post ? ? Hsplit ? ?|src Hloop Hnone
                     |src data Hloop Hfile|src Hloop Hdir];
    cbn [final].
  - by left.
  - destruct (mkdir_effects (PUBLIC_DIR file) fs) as (Hnew & _ & _).
    destruct (Hnew q Hq) as [Hnone|Hdir]; [by left|by right; right].
  - destruct (mkdir_effects (PUBLIC_DIR file) fs) as (Hnew & _ & _).
    destruct (Hnew q Hq) as [Hnone|Hdir]; [by left|by right; right].
  - apply new_through_loop; [|done]. intros e' He'.
    rewrite Hsplit. apply elem_of_app. by left.
  - by apply new_through_loop.
  - destruct (decide (q = old_ico file)) as [->|Hne].
    + left. apply lookup_delete_eq.
    + rewrite lookup_delete_ne by done. by apply new_through_loop.
  - by apply new_through_loop.
Qed.

Lemma new_nodes_are_outputs_or_directories_witness :
  demo_fs !! PUBLIC_DIR demo_file = None
  /\ PUBLIC_DIR demo_file `suffix_of` PUBLIC_DIR demo_file
  /\ final (generate_logos demo_file demo_fs) !! PUBLIC_DIR demo_file = Some Dir.
Proof.
  assert (Hq : demo_fs !! PUBLIC_DIR demo_file = None) by (vm_compute; reflexivity).
  split; [exact Hq|]. split; [reflexivity|].
  destruct (new_nodes_are_outputs_or_directories demo_file demo_fs _ Hq)
    as [Hnone|[(e & img & _ & Heq & _)|[_ Hdir]]].
  - vm_compute in Hnone. discriminate Hnone.
  - exfalso. apply (f_equal length) in Heq. vm_compute in Heq. discriminate Heq.
  - exact Hdir.
Defined.

(** X3: no run changes the source logo: what is at its path afterwards
    is what was there before. *)
Theorem source_is_never_changed file fs :
  final (generate_logos file fs) !! SOURCE_LOGO file = fs !! SOURCE_LOGO file.
Proof.
  assert (Hloop : forall entries img n,
            fs !! SOURCE_LOGO file = Some n ->
            write_all file entries img (final (mkdir (PUBLIC_DIR file) fs)) !! SOURCE_LOGO file
            = Some n).
  { intros entries img n Hsrc. apply kept_through_loop; [done|].
    intros e _. apply not_eq_sym, target_not_source. }
  pose proof (generate_logos_ends file fs) as Hends.
  destruct Hends as [|n e Hsrc Hmk|n e Hsrc Hopen Hmk|format optimize src pre e post Hsrc ? ? ? ?
                     |src [(format & optimize & Hsrc) _] Hnone
                     |src data [(format & optimize & Hsrc) _] Hfile
                     |src [(format & optimize & Hsrc) _] Hdir];
    cbn [final]; rewrite ?Hsrc.
  - done.
  - by apply after_mkdir_source.
  - by apply after_mkdir_source.
  - by apply Hloop.
  - by apply Hloop.
  - rewrite lookup_delete_ne by apply not_eq_sym, source_not_ico. by apply Hloop.
  - by apply Hloop.
Qed.

(** ** Failures before and inside the loop *)

(** X4: a source that exists and is no decodable image, a directory or a
    file no decoder recognises, makes [Image.open] raise, and the
    exception leaves [generate_logos]: [IsADirectoryError] for the one,
    [UnidentifiedImageError] for the other.  Nothing is saved and the
    legacy file is not looked at, but the output directory has been made
    by then: the directory creation is the one effect left behind. *)
Theorem undecodable_source_raises file fs n :
  fs !! SOURCE_LOGO file = Some n ->
  (forall format optimize src, n <> File (Encoded format optimize src)) ->
  outcome (mkdir (PUBLIC_DIR file) fs) = Returned tt ->
  let r := generate_logos file fs in
  outcome r = Raised (match n with
                      | Dir => IsADirectoryError (SOURCE_LOGO file)
                      | File _ => UnidentifiedImageError (SOURCE_LOGO file)
                      end)
  /\ saved (log r) = []
  /\ quiet (old_ico file) (log r)
  /\ final r = final (mkdir (PUBLIC_DIR file) fs)
  /\ is_dir (final r) (PUBLIC_DIR file) = true.
Proof.
  intros Hsrc Hbad Hmk r. subst r.
  assert (Hopen : outcome (Image_open (SOURCE_LOGO file) fs)
                  = Raised (match n with
                            | Dir => IsADirectoryError (SOURCE_LOGO file)
                            | File _ => UnidentifiedImageError (SOURCE_LOGO file)
                            end)).
  { unfold Image_open. rewrite node_at_source, Hsrc.
    destruct n as [[format optimize src|raw]|]; [|done..]. by destruct (Hbad format optimize src). }
  erewrite run_open_raised by done. cbn [outcome final log]. split_and!.
  - done.
  - cbn [saved]. by rewrite saved_app, saved_mkdir_events by apply mkdir_spec.
  - apply Forall_cons_2; [|apply Forall_app_2].
    + intros [[found Hx]|Hx]; discriminate.
    + apply quiet_mkdir_events, mkdir_spec.
    + apply Forall_cons_2; [|apply Forall_nil_2].
      intros [[found Hx]|Hx]; discriminate.
  - done.
  - by apply after_mkdir_public.
Qed.

Lemma undecodable_source_raises_witness :
  garbage_fs !! SOURCE_LOGO demo_file = Some (File (Bytes [60; 104; 116; 109; 108; 62]))
  /\ outcome (mkdir (PUBLIC_DIR demo_file) garbage_fs) = Returned tt
  /\ outcome (generate_logos demo_file garbage_fs)
     = Raised (UnidentifiedImageError (SOURCE_LOGO demo_file))
  /\ is_dir (final (generate_logos demo_file garbage_fs)) (PUBLIC_DIR demo_file) = true.
Proof.
  assert (Hsrc : garbage_fs !! SOURCE_LOGO demo_file
                 = Some (File (Bytes [60; 104; 116; 109; 108; 62])))
    by (vm_compute; reflexivity).
  assert (Hmk : outcome (mkdir (PUBLIC_DIR demo_file) garbage_fs) = Returned tt)
    by (vm_compute; reflexivity).
  split; [exact Hsrc|]. split; [exact Hmk|].
  destruct (undecodable_source_raises demo_file garbage_fs _ Hsrc) as (Hout & _ & _ & _ & Hdir).
  - intros format optimize src. discriminate.
  - exact Hmk.
  - split; [exact Hout|exact Hdir].
Defined.

(** X5: [exist_ok=True] forgives a directory only.  When [public] is a
    regular file, the directory creation raises [FileExistsError], which
    leaves [generate_logos] before the source is opened: the file system
    is as it was and the log holds the existence check of the source and
    nothing more. *)
Theorem public_as_file_raises file fs n data :
  fs !! SOURCE_LOGO file = Some n ->
  fs !! PUBLIC_DIR file = Some (File data) ->
  generate_logos file fs
  = MkRun (Raised (FileExistsError (PUBLIC_DIR file))) fs
          [EvExists (SOURCE_LOGO file) true].
Proof.
  intros Hsrc Hpub.
  assert (Hmk : mkdir (PUBLIC_DIR file) fs
                = MkRun (Raised (FileExistsError (PUBLIC_DIR file))) fs []).
  { unfold PUBLIC_DIR at 1, joinpath. cbn [mkdir]. fold (joinpath (parent (parent file)) "public").
    fold (PUBLIC_DIR file).
    unfold os_mkdir, is_dir. unfold PUBLIC_DIR, joinpath in *. rewrite !node_at_nonroot.
    by rewrite Hpub. }
  erewrite run_mkdir_raised; [by rewrite Hmk|done|by rewrite Hmk].
Qed.

Lemma public_as_file_raises_witness :
  public_file_fs !! SOURCE_LOGO demo_file = Some (File (Encoded "PNG" false demo_src))
  /\ public_file_fs !! PUBLIC_DIR demo_file = Some (File (Bytes []))
  /\ generate_logos demo_file public_file_fs
     = MkRun (Raised (FileExistsError (PUBLIC_DIR demo_file))) public_file_fs
             [EvExists (SOURCE_LOGO demo_file) true].
Proof.
  assert (Hsrc : public_file_fs !! SOURCE_LOGO demo_file
                 = Some (File (Encoded "PNG" false demo_src))) by (vm_compute; reflexivity).
  assert (Hpub : public_file_fs !! PUBLIC_DIR demo_file = Some (File (Bytes [])))
    by (vm_compute; reflexivity).
  split; [exact Hsrc|]. split; [exact Hpub|].
  exact (public_as_file_raises demo_file public_file_fs _ _ Hsrc Hpub).
Defined.

(** X6: a failure in the loop is not rolled back.  When the save of an
    entry raises because its name is a directory, the entries before it
    are on disk with their new content, the entries after it and the
    legacy file are as they were, and the directory in the way is still
    there. *)
Theorem loop_failure_keeps_earlier_outputs file fs format optimize src pre e post :
  fs !! SOURCE_LOGO file = Some (File (Encoded format optimize src)) ->
  outcome (mkdir (PUBLIC_DIR file) fs) = Returned tt ->
  items SIZES = pre ++ e :: post ->
  (forall e', e' ∈ pre -> fs !! target file e' <> Some Dir) ->
  fs !! target file e = Some Dir ->
  let m := final (generate_logos file fs) in
  (forall e', e' ∈ pre -> m !! target file e' = Some (File (output_of (as_rgba src) e')))
  /\ m !! target file e = Some Dir
  /\ (forall e', e' ∈ post -> m !! target file e' = fs !! target file e')
  /\ m !! old_ico file = fs !! old_ico file.
Proof.
  intros Hsrc Hmk Hsplit Hfree Hdir m. subst m.
  erewrite run_blocked by done. cbn [final].
  pose proof SIZES_keys_distinct as Hnd. rewrite Hsplit, fmap_app in Hnd.
  apply NoDup_app in Hnd as (Hpre & Hcross & Hrest).
  assert (Haway : forall e', e' ∈ e :: post -> forall e0, e0 ∈ pre -> target file e0 <> target file e').
  { intros e' He' e0 He0 Heq. apply target_inj in Heq.
    apply (Hcross e0.1); [by apply list_elem_of_fmap_2|].
    rewrite Heq. by apply (list_elem_of_fmap_2 fst). }
  split_and!.
  - intros e' He'. by apply write_all_lookup.
  - rewrite write_all_other; [|apply Haway; by left].
    unfold target. by rewrite after_mkdir_inside.
  - intros e' He'. rewrite write_all_other; [|apply Haway; by right].
    unfold target. by rewrite after_mkdir_inside.
  - rewrite write_all_other.
    + unfold old_ico. by rewrite after_mkdir_inside.
    + intros e0 He0. apply SIZES_no_ico. rewrite Hsplit. apply elem_of_app. by left.
Qed.

Lemma blocked_prefix_free e' :
  e' ∈ [("logo-32.png", 32); ("logo-64.png", 64)] ->
  blocked_fs !! target demo_file e' <> Some Dir.
Proof.
  intros He'.
  repeat (apply elem_of_cons in He' as [->|He']; [vm_compute; discriminate|]).
  by apply elem_of_nil in He'.
Qed.

Lemma loop_failure_keeps_earlier_outputs_witness :
  blocked_fs !! SOURCE_LOGO demo_file = Some (File (Encoded "PNG" false demo_src))
  /\ outcome (mkdir (PUBLIC_DIR demo_file) blocked_fs) = Returned tt
  /\ blocked_fs !! target demo_file ("logo-128.png", 128) = Some Dir
  /\ final (generate_logos demo_file blocked_fs) !! target demo_file ("logo-64.png", 64)
     = Some (File (output_of (as_rgba demo_src) ("logo-64.png", 64)))
  /\ final (generate_logos demo_file blocked_fs) !! target demo_file ("logo-512.png", 512)
     = blocked_fs !! target demo_file ("logo-512.png", 512).
Proof.
  assert (Hsrc : blocked_fs !! SOURCE_LOGO demo_file
                 = Some (File (Encoded "PNG" false demo_src))) by (vm_compute; reflexivity).
  assert (Hmk : outcome (mkdir (PUBLIC_DIR demo_file) blocked_fs) = Returned tt)
    by (vm_compute; reflexivity).
  assert (Hdir : blocked_fs !! target demo_file ("logo-128.png", 128) = Some Dir)
    by (vm_compute; reflexivity).
  split; [exact Hsrc|]. split; [exact Hmk|]. split; [exact Hdir|].
  destruct (loop_failure_keeps_earlier_outputs demo_file blocked_fs "PNG" false demo_src
              [("logo-32.png", 32); ("logo-64.png", 64)] ("logo-128.png", 128)
              [("logo-192.png", 192); ("logo-512.png", 512); ("favicon.png", 32)]
              Hsrc Hmk eq_refl blocked_prefix_free Hdir) as (Hbefore & _ & Hafter & _).
  split.
  - apply Hbefore. right. left.
  - apply Hafter. right. left.
Defined.

(** ** What a run does, and what it never does *)

Section Effects.

Variable file : Path.

Lemma confined_head_log fs img : Forall (confined file) (head_log file fs img).
Proof.
  unfold head_log. apply Forall_cons_2; [by left|]. apply Forall_app_2.
  - destruct (mkdir_effects (PUBLIC_DIR file) fs) as (_ & Hlog & _).
    eapply Forall_impl; [exact Hlog|]. by intros ev (q & -> & Hq).
  - by repeat apply Forall_cons_2.
Qed.

Lemma confined_loop_log entries img :
  (forall e, e ∈ entries -> e ∈ items SIZES) ->
  Forall (confined file) (loop_log file entries img).
Proof.
  induction entries as [|e rest IH]; intros Hsub; [apply Forall_nil_2|].
  cbn [loop_log]. repeat apply Forall_cons_2.
  - exists e, img. split_and!; [apply Hsub; by left|done|done].
  - done.
  - apply IH. intros e' He'. apply Hsub. by right.
Qed.

Lemma printed_app l1 l2 : printed (l1 ++ l2) = printed l1 ++ printed l2.
Proof.
  induction l1 as [|ev l1 IH]; [done|].
  destruct ev; simpl; by rewrite ?IH.
Qed.

Lemma printed_mkdir_events l : Forall is_mkdir_event l -> printed l = [].
Proof. induction 1 as [|ev l [q ->] _ IH]; [done|]. exact IH. Qed.

Lemma printed_loop_log entries img :
  printed (loop_log file entries img) = generated_line <$> entries.
Proof. induction entries as [|e rest IH]; [done|]. simpl. by rewrite IH. Qed.

Lemma printed_head_log fs img :
  printed (head_log file fs img) = [loading_line file; source_size_line img].
Proof.
  unfold head_log. cbn [printed]. rewrite printed_app.
  by rewrite printed_mkdir_events by apply mkdir_spec.
Qed.

End Effects.

(** X7: whatever the file system and the outcome, every file-system call
    of a run stays within the script's business: what is opened is the
    source, what is made is [public] or a directory above it, what is
    saved is a table entry written under its name in [public], what is
    unlinked is [public/favicon.ico], and existence is asked of the
    source and of the legacy file only. *)
Theorem effects_are_confined file fs :
  Forall (confined file) (log (generate_logos file fs)).
Proof.
  pose proof (generate_logos_ends file fs) as Hends.
  destruct Hends as [|? ? ? ?|? ? ? ? ?|? ? ? pre e post ? ? Hsplit ? ?|src Hloop Hnone
                     |src data Hloop Hfile|src Hloop Hdir];
    cbn [log].
  - apply Forall_cons_2; [by left|]. by apply Forall_cons_2.
  - apply Forall_cons_2; [by left|].
    destruct (mkdir_effects (PUBLIC_DIR file) fs) as (_ & Hlog & _).
    eapply Forall_impl; [exact Hlog|]. by intros ev (q & -> & Hq).
  - apply Forall_cons_2; [by left|]. apply Forall_app_2; [|by apply Forall_cons_2].
    destruct (mkdir_effects (PUBLIC_DIR file) fs) as (_ & Hlog & _).
    eapply Forall_impl; [exact Hlog|]. by intros ev (q & -> & Hq).
  - apply Forall_app_2; [apply confined_head_log|]. apply confined_loop_log.
    intros e' He'. rewrite Hsplit. apply elem_of_app. by left.
  - apply Forall_app_2; [apply confined_head_log|]. apply Forall_app_2.
    + by apply confined_loop_log.
    + apply Forall_cons_2; [by right|]. by apply Forall_cons_2.
  - apply Forall_app_2; [apply confined_head_log|]. apply Forall_app_2.
    + by apply confined_loop_log.
    + apply Forall_cons_2; [by right|]. by repeat apply Forall_cons_2.
  - apply Forall_app_2; [apply confined_head_log|]. apply Forall_app_2.
    + by apply confined_loop_log.
    + apply Forall_cons_2; [by right|]. apply Forall_nil_2.
Qed.

(** X8: the standard output of a run that goes through: the line for the
    source, the line with its size and mode after conversion, one line
    per table entry in table order, the line for the removed legacy file
    when there was one, and the summary, which counts the six entries of
    the table.  Making the output directory prints nothing. *)
Theorem ready_run_prints file fs src :
  ready file fs src ->
  printed (log (generate_logos file fs))
  = [loading_line file; source_size_line (as_rgba src)]
    ++ (generated_line <$> items SIZES)
    ++ (match fs !! old_ico file with Some _ => [deleted_line] | None => [] end)
    ++ [summary_line file (items SIZES)].
Proof.
  intros [Hloop Hico].
  destruct (fs !! old_ico file) as [[data|]|] eqn:Hlook; [|done|].
  - erewrite run_ico_deleted by done. cbn [log].
    by rewrite !printed_app, printed_head_log, printed_loop_log.
  - erewrite run_no_ico by done. cbn [log].
    by rewrite !printed_app, printed_head_log, printed_loop_log.
Qed.

Lemma ready_run_prints_witness :
  ready demo_file demo_fs demo_src
  /\ printed (log (generate_logos demo_file demo_fs))
     = [ "📸 Loading source logo: /repo/logo.png";
         "   Source size: 2048x2048, Mode: RGBA";
         "   ✓ Generated: logo-32.png (32x32)";
         "   ✓ Generated: logo-64.png (64x64)";
         "   ✓ Generated: logo-128.png (128x128)";
         "   ✓ Generated: logo-192.png (192x192)";
         "   ✓ Generated: logo-512.png (512x512)";
         "   ✓ Generated: favicon.png (32x32)";
         String (Ascii.ascii_of_nat 10) "" +:+ "✅ Generated 6 logo files in /repo/public/" ].
Proof.
  split; [exact demo_ready|].
  etrans; [exact (ready_run_prints demo_file demo_fs demo_src demo_ready)|].
  vm_compute. reflexivity.
Defined.

(** X9: no run raises [FileNotFoundError]: the source is opened and the
    legacy file unlinked only after [exists()] has found them, and the
    output directory is made with its parents. *)
Theorem never_file_not_found file fs p :
  outcome (generate_logos file fs) <> Raised (FileNotFoundError p).
Proof.
  pose proof (generate_logos_ends file fs) as Hends.
  destruct Hends as [|n e Hsrc Hmk|n e Hsrc Hopen Hmk|? ? ? pre e post ? ? Hsplit ? ?
                     |src Hloop Hnone|src data Hloop Hfile|src Hloop Hdir];
    cbn [outcome]; try discriminate.
  - intros [= ->]. destruct (mkdir_effects (PUBLIC_DIR file) fs) as (_ & _ & Hnf).
    by destruct (Hnf p).
  - intros [= ->]. unfold Image_open in Hopen. rewrite node_at_source, Hsrc in Hopen.
    by destruct n as [[|]|].
Qed.

(** X10: a [True] return can be relied on.  When the run returns [True],
    the source was a decodable image, the output directory could be made
    and no output name nor [favicon.ico] was a directory; and afterwards
    the output directory is there, each of the six outputs is on disk as
    the resize of that image to its edge length, and [favicon.ico] is
    absent. *)
Theorem true_return_means_outputs_written file fs :
  outcome (generate_logos file fs) = Returned true ->
  let m := final (generate_logos file fs) in
  exists src,
    ready file fs src
    /\ is_dir m (PUBLIC_DIR file) = true
    /\ (forall e, e ∈ items SIZES ->
          m !! target file e
          = Some (File (Encoded "PNG" true (resize (e.2, e.2) LANCZOS (as_rgba src)))))
    /\ m !! old_ico file = None.
Proof.
  intros Hret m. destruct (returns_true_ready file fs Hret) as [src Hready].
  destruct (ready_leaves_settled file fs src Hready) as (_ & Hpub & Hout & Hgone).
  exists src. split_and!; [exact Hready|exact Hpub| |exact Hgone].
  intros e He. by apply Hout.
Qed.

Lemma true_return_means_outputs_written_witness :
  outcome (generate_logos demo_file legacy_fs) = Returned true
  /\ is_dir (final (generate_logos demo_file legacy_fs)) (PUBLIC_DIR demo_file) = true
  /\ final (generate_logos demo_file legacy_fs) !! old_ico demo_file = None
  /\ is_Some (final (generate_logos demo_file legacy_fs)
                !! target demo_file ("favicon.png", 32)).
Proof.
  assert (Hret : outcome (generate_logos demo_file legacy_fs) = Returned true)
    by (vm_compute; reflexivity).
  split; [exact Hret|].
  destruct (true_return_means_outputs_written demo_file legacy_fs Hret)
    as (src & _ & Hpub & Hout & Hgone).
  split; [exact Hpub|]. split; [exact Hgone|].
  eexists. apply (Hout ("favicon.png", 32)).
  unfold items, SIZES. do 5 right. left.
Defined.

(** ** The script as a whole *)

Section Whole.

Variable os_system : string -> Env -> Z * Env.
Variable file : Path.

Lemma ran_Ran l : ran (Ran <$> l) = l.
Proof. induction l as [|ev l IH]; [done|]. simpl. f_equal. exact IH. Qed.

Lemma commands_Ran l : commands (Ran <$> l) = [].
Proof. induction l as [|ev l IH]; [done|]. exact IH. Qed.

(** The script once [Image] is bound, with the events up to there. *)
Lemma script_imported env env1 events :
  import_or_install os_system env = (true, env1, events) ->
  script os_system file env
  = (exit_status (main file (disk env1)),
     MkEnv (pillow env1) (final (generate_logos file (disk env1))),
     events ++ (Ran <$> log (generate_logos file (disk env1)))).
Proof.
  intros Himp. unfold script. rewrite Himp. unfold main, exit_status.
  by destruct (outcome (generate_logos file (disk env1))).
Qed.

End Whole.

(** X11: when [PIL] cannot be imported and still cannot after the install
    command, the [ImportError] of the second import ends the script with
    status 1 before [generate_logos] is reached: the script has printed
    its one line and run the one command, it has made no file-system call
    of its own, and the environment is the one the command left. *)
Theorem script_dies_without_pillow os_system file env :
  pillow env = false ->
  pillow (os_system install_command env).2 = false ->
  script os_system file env
  = (1, (os_system install_command env).2,
     [Ran (EvPrint "Installing Pillow..."); System install_command]).
Proof.
  intros Hmissing Hstill. unfold script, import_or_install, from_PIL_import_Image.
  rewrite Hmissing. destruct (os_system install_command env) as [status env1].
  cbn [snd] in Hstill. by rewrite Hstill.
Qed.

Lemma script_dies_without_pillow_witness :
  pillow (MkEnv false demo_fs) = false
  /\ pillow (pip_fails install_command (MkEnv false demo_fs)).2 = false
  /\ script pip_fails demo_file (MkEnv false demo_fs)
     = (1, MkEnv false demo_fs,
        [Ran (EvPrint "Installing Pillow..."); System install_command]).
Proof.
  split; [reflexivity|]. split; [reflexivity|].
  exact (script_dies_without_pillow pip_fails demo_file (MkEnv false demo_fs) eq_refl eq_refl).
Defined.

(** X12: the script end to end.  Whenever [Image] ends up bound, at once
    or after the install command, whatever exit status that command
    reported, and the file system at that point is ready, the script
    exits with status 0 having saved the six outputs, which are on disk
    at the end; the install command has run once if the first import
    failed and not at all otherwise. *)
Theorem script_generates_logos os_system file env src :
  let env1 := if pillow env then env else (os_system install_command env).2 in
  pillow env1 = true ->
  ready file (disk env1) src ->
  let result := script os_system file env in
  result.1.1 = 0
  /\ (forall e, e ∈ items SIZES ->
        disk result.1.2 !! target file e = Some (File (output_of (as_rgba src) e)))
  /\ saved (ran result.2) = target file <$> items SIZES
  /\ commands result.2 = (if pillow env then [] else [install_command]).
Proof.
  intros env1 Hbound Hready result.
  assert (Himp : import_or_install os_system env
                 = (true, env1,
                    if pillow env then []
                    else [Ran (EvPrint "Installing Pillow..."); System install_command])).
  { subst env1. unfold import_or_install, from_PIL_import_Image.
    destruct (pillow env) eqn:Hp; [done|].
    destruct (os_system install_command env) as [status env2].
    cbn [snd] in Hbound. by rewrite Hbound. }
  subst result. rewrite (script_imported os_system file env env1 _ Himp).
  cbn [fst snd disk].
  pose proof (ready_returns_true file (disk env1) src Hready) as Hret.
  split_and!.
  - unfold exit_status, main. by rewrite Hret.
  - intros e He. by apply ready_output.
  - assert (Hall : saved (log (generate_logos file (disk env1))) = target file <$> items SIZES)
      by (by apply (ready_processed_all file (disk env1) src)).
    destruct (pillow env); cbn [app ran]; by rewrite ran_Ran.
  - destruct (pillow env); cbn [app commands]; by rewrite commands_Ran.
Qed.

Lemma script_generates_logos_witness :
  pillow (pip_installs install_command (MkEnv false demo_fs)).2 = true
  /\ ready demo_file (disk (pip_installs install_command (MkEnv false demo_fs)).2) demo_src
  /\ (script pip_installs demo_file (MkEnv false demo_fs)).1.1 = 0
  /\ commands (script pip_installs demo_file (MkEnv false demo_fs)).2 = [install_command].
Proof.
  split; [reflexivity|]. split; [exact demo_ready|].
  destruct (script_generates_logos pip_installs demo_file (MkEnv false demo_fs) demo_src
              eq_refl demo_ready) as (Hstatus & _ & _ & Hcommands).
  split; [exact Hstatus|exact Hcommands].
Defined.
